(** * Tax planner 2026: scenario calculator and numeric parsing

    A shallow embedding of [src/utils/formatting] ([parseNum]) and of the
    calculation part of [src/features/tax-planner/TaxPlanner2026.tsx]
    ([totals], [isVatPayer], the four scenarios, [best], [chartData]).

    JavaScript numbers are IEEE 754 binary64 values.  They are modelled by
    [spec_float] of the Standard Library at precision 53 and maximal
    exponent 1024, whose operations are defined on integers and compute.
    JavaScript strings are sequences of UTF-16 code units. *)

From Stdlib Require Import ZArith NArith List Bool String Ascii Lia.
From Stdlib Require Import SpecFloat.
Import ListNotations.

Open Scope Z_scope.

(** ** The JavaScript primitives the sources call *)

Module JS.

(** *** Numbers *)

Definition number := spec_float.

Definition prec : Z := 53.
Definition emax : Z := 1024.

Definition NaN : number := S754_nan.
Definition Infinity : number := S754_infinity false.
Definition pos_zero : number := S754_zero false.
Definition neg_zero : number := S754_zero true.

(** The operators [+], [-], [*], [<] and [>] on numbers. *)
Definition add (x y : number) : number := SFadd prec emax x y.
Definition sub (x y : number) : number := SFsub prec emax x y.
Definition mul (x y : number) : number := SFmul prec emax x y.
Definition lt (x y : number) : bool := SFltb x y.
Definition gt (x y : number) : bool := SFltb y x.
Definition le (x y : number) : bool := SFleb x y.
Definition num_eq (x y : number) : bool := SFeqb x y.

Definition isNaN (x : number) : bool :=
  match x with S754_nan => true | _ => false end.

(** The sign bit; NaN carries none here. *)
Definition sign_bit (x : number) : bool :=
  match x with
  | S754_zero s | S754_infinity s | S754_finite s _ _ => s
  | S754_nan => false
  end.

Definition is_pos_zero (x : number) : bool :=
  match x with S754_zero false => true | _ => false end.

Definition is_neg_zero (x : number) : bool :=
  match x with S754_zero true => true | _ => false end.

(** [Math.max]: starts from -Infinity, returns NaN as soon as an argument
    is NaN, and prefers +0 to -0. *)
Fixpoint Math_max_from (highest : number) (args : list number) : number :=
  match args with
  | [] => highest
  | n :: rest =>
      if isNaN n then NaN
      else
        let highest1 :=
          if is_pos_zero n && is_neg_zero highest then pos_zero else highest in
        let highest2 := if gt n highest1 then n else highest1 in
        Math_max_from highest2 rest
  end.

Definition Math_max (args : list number) : number :=
  Math_max_from (S754_infinity true) args.

(** The Number value of the positive rational [num / den]: the nearest
    binary64 value, ties to the even significand, overflow to infinity. *)
Definition round_ratio (s : bool) (num den : positive) : number :=
  let '(q, e, l) := SFdiv_core_binary prec emax (Zpos num) 0 (Zpos den) 0 in
  binary_round_aux prec emax s q e l.

(** The Number value of [(-1)^s * m * 10^e10]. *)
Definition of_decimal (s : bool) (m : N) (e10 : Z) : number :=
  match m with
  | N0 => S754_zero s
  | Npos p =>
      match e10 with
      | Z0 => round_ratio s p 1
      | Zpos k => round_ratio s (p * 10 ^ k) 1
      | Zneg k => round_ratio s p (10 ^ k)
      end
  end.

(** [Math.round]: the nearest integral number, ties towards +Infinity;
    values in [-0.5, 0) give -0. *)
Definition Math_round (x : number) : number :=
  match x with
  | S754_finite s m e =>
      match e with
      | Zneg k =>
          let v := if s then Zneg m else Zpos m in
          let r := Z.shiftr (2 * v + 2 ^ Zpos k) (Zpos k + 1) in
          match r with
          | Z0 => S754_zero s
          | _ => binary_normalize prec emax r 0 false
          end
      | _ => x
      end
  | _ => x
  end.

(** *** Strings *)

Definition code_unit := N.
Definition jsstring := list code_unit.

Definition cu (a : ascii) : code_unit := N_of_ascii a.

(** A string literal of the source that holds ASCII characters only. *)
Fixpoint js (s : string) : jsstring :=
  match s with
  | EmptyString => []
  | String a t => cu a :: js t
  end.

Definition jsstring_eqb (s t : jsstring) : bool :=
  if list_eq_dec N.eq_dec s t then true else false.

(** WhiteSpace and LineTerminator code units: the class [\s] of regular
    expressions, and the StrWhiteSpaceChar of the string-to-number grammar. *)
Definition is_white_space (c : code_unit) : bool :=
  ((9 <=? c) && (c <=? 13) || (c =? 32) || (c =? 160) || (c =? 5760)
   || (8192 <=? c) && (c <=? 8202) || (c =? 8232) || (c =? 8233)
   || (c =? 8239) || (c =? 8287) || (c =? 12288) || (c =? 65279))%N.

(** [s.replace(/[\s\u00A0]/g, empty)]: every code unit of the class is
    removed. *)
Definition in_class_s_or_nbsp (c : code_unit) : bool :=
  is_white_space c || (c =? 160)%N.

Definition remove_class_global (s : jsstring) : jsstring :=
  filter (fun c => negb (in_class_s_or_nbsp c)) s.

(** [s.replace(c, r)] with a one-character search string: only the first
    occurrence is replaced. *)
Fixpoint replace_first (c : code_unit) (r : jsstring) (s : jsstring) : jsstring :=
  match s with
  | [] => []
  | d :: t => if (d =? c)%N then r ++ t else d :: replace_first c r t
  end.

Fixpoint trim_start (s : jsstring) : jsstring :=
  match s with
  | c :: t => if is_white_space c then trim_start t else s
  | [] => []
  end.

Definition trim (s : jsstring) : jsstring :=
  rev (trim_start (rev (trim_start s))).

(** *** String to number: the StringNumericLiteral grammar *)

Definition digit_value (radix : N) (c : code_unit) : option N :=
  (let v :=
     if (48 <=? c) && (c <=? 57) then Some (c - 48)
     else if (97 <=? c) && (c <=? 102) then Some (c - 87)
     else if (65 <=? c) && (c <=? 70) then Some (c - 55)
     else None in
   match v with
   | Some d => if d <? radix then Some d else None
   | None => None
   end)%N.

(** The longest prefix of digits of the radix, as digit values, and the
    rest of the string. *)
Fixpoint scan_digits (radix : N) (s : jsstring) : list N * jsstring :=
  match s with
  | [] => ([], [])
  | c :: t =>
      match digit_value radix c with
      | Some d => let (ds, r) := scan_digits radix t in (d :: ds, r)
      | None => ([], s)
      end
  end.

Definition digits_value (radix : N) (ds : list N) : N :=
  fold_left (fun acc d => acc * radix + d)%N ds 0%N.

Inductive StrNumericLiteral :=
  | LitInfinity (neg : bool)
  | LitDecimal (neg : bool) (int_part frac_part : list N) (exponent : Z)
  | LitNonDecimal (radix : N) (digits : list N).

(** ExponentPart, optional: what follows the significand up to the end of
    the literal. *)
Definition parse_ExponentPart (s : jsstring) : option Z :=
  match s with
  | [] => Some 0
  | c :: t =>
      if ((c =? cu "e") || (c =? cu "E"))%N then
        let '(neg, u) :=
          match t with
          | d :: u =>
              if (d =? cu "+")%N then (false, u)
              else if (d =? cu "-")%N then (true, u)
              else (false, t)
          | [] => (false, t)
          end in
        match scan_digits 10 u with
        | (d :: ds, []) =>
            let v := Z.of_N (digits_value 10 (d :: ds)) in
            Some (if neg then - v else v)
        | _ => None
        end
      else None
  end.

Definition parse_StrUnsignedDecimalLiteral (neg : bool) (s : jsstring)
  : option StrNumericLiteral :=
  if jsstring_eqb s (js "Infinity") then Some (LitInfinity neg)
  else
    let (ip, r1) := scan_digits 10 s in
    let (fp, r2) :=
      match r1 with
      | c :: t => if (c =? cu ".")%N then scan_digits 10 t else ([], r1)
      | [] => ([], r1)
      end in
    match ip, fp with
    | [], [] => None
    | _, _ =>
        match parse_ExponentPart r2 with
        | Some e => Some (LitDecimal neg ip fp e)
        | None => None
        end
    end.

Definition parse_NonDecimal (radix : N) (s : jsstring)
  : option StrNumericLiteral :=
  match scan_digits radix s with
  | (d :: ds, []) => Some (LitNonDecimal radix (d :: ds))
  | _ => None
  end.

Definition non_decimal_radix (c : code_unit) : option N :=
  (if (c =? cu "x") || (c =? cu "X") then Some 16
   else if (c =? cu "o") || (c =? cu "O") then Some 8
   else if (c =? cu "b") || (c =? cu "B") then Some 2
   else None)%N.

Definition parse_StrDecimalLiteral (s : jsstring) : option StrNumericLiteral :=
  match s with
  | c :: t =>
      if (c =? cu "+")%N then parse_StrUnsignedDecimalLiteral false t
      else if (c =? cu "-")%N then parse_StrUnsignedDecimalLiteral true t
      else parse_StrUnsignedDecimalLiteral false s
  | [] => None
  end.

Definition parse_StrNumericLiteral (s : jsstring) : option StrNumericLiteral :=
  match s with
  | z :: c :: t =>
      if (z =? cu "0")%N then
        match non_decimal_radix c with
        | Some radix => parse_NonDecimal radix t
        | None => parse_StrDecimalLiteral s
        end
      else parse_StrDecimalLiteral s
  | _ => parse_StrDecimalLiteral s
  end.

(** The Number value of the mathematical value of a literal. *)
Definition StringNumericValue (l : StrNumericLiteral) : number :=
  match l with
  | LitInfinity neg => S754_infinity neg
  | LitDecimal neg ip fp e =>
      of_decimal neg (digits_value 10 (ip ++ fp))
        (e - Z.of_nat (List.length fp))
  | LitNonDecimal radix ds => of_decimal false (digits_value radix ds) 0
  end.

(** [Number(s)] for a string [s]: an empty or all-white string is +0, a
    string outside the grammar is NaN. *)
Definition StringToNumber (s : jsstring) : number :=
  match trim s with
  | [] => pos_zero
  | t =>
      match parse_StrNumericLiteral t with
      | Some l => StringNumericValue l
      | None => NaN
      end
  end.

(** *** Number to string *)

Definition number_same (x y : number) : bool :=
  match x, y with
  | S754_zero s, S754_zero t => Bool.eqb s t
  | S754_infinity s, S754_infinity t => Bool.eqb s t
  | S754_nan, S754_nan => true
  | S754_finite s m e, S754_finite t n f =>
      Bool.eqb s t && Pos.eqb m n && Z.eqb e f
  | _, _ => false
  end.

Fixpoint uint_codes (u : Decimal.uint) : jsstring :=
  match u with
  | Decimal.Nil => []
  | Decimal.D0 v => 48%N :: uint_codes v
  | Decimal.D1 v => 49%N :: uint_codes v
  | Decimal.D2 v => 50%N :: uint_codes v
  | Decimal.D3 v => 51%N :: uint_codes v
  | Decimal.D4 v => 52%N :: uint_codes v
  | Decimal.D5 v => 53%N :: uint_codes v
  | Decimal.D6 v => 54%N :: uint_codes v
  | Decimal.D7 v => 55%N :: uint_codes v
  | Decimal.D8 v => 56%N :: uint_codes v
  | Decimal.D9 v => 57%N :: uint_codes v
  end.

(** The decimal digits of a natural number, most significant first. *)
Definition decimal_digits (n : N) : jsstring := uint_codes (N.to_uint n).

(** The integer [n] with [10^(n-1) <= num/den < 10^n]. *)
Definition decimal_magnitude (num den : positive) : Z :=
  if (den <=? num)%positive then
    Z.of_nat (List.length (decimal_digits (Npos num / Npos den)))
  else
    let j := Z.of_nat (List.length (decimal_digits (Npos den / Npos num))) in
    if (Zpos num * 10 ^ (j - 1) =? Zpos den) then 2 - j else 1 - j.

(** The candidates with [k] digits for a positive [x = num/den] of decimal
    magnitude [n0]: the two integers around [x / 10^(n0-k)], the nearer one
    first and the even one first when they are equally near. *)
Definition candidates (num den : positive) (n0 k : Z) : list N :=
  let '(a, b) :=
    if 0 <=? k - n0 then (Zpos num * 10 ^ (k - n0), Zpos den)
    else (Zpos num, Zpos den * 10 ^ (n0 - k)) in
  let lo := Z.to_N (a / b) in
  let r := a mod b in
  if r =? 0 then [lo]
  else
    match 2 * r ?= b with
    | Lt => [lo; N.succ lo]
    | Gt => [N.succ lo; lo]
    | Eq => if N.even lo then [lo; N.succ lo] else [N.succ lo; lo]
    end.

(** The first candidate whose Number value is [x]. *)
Definition round_trips (x : number) (n0 k : Z) (cs : list N) : option N :=
  find (fun c => number_same (of_decimal false c (n0 - k)) x) cs.

(** The integers [s] and [n] of Number::toString for a positive finite [x]:
    [s] has as few digits [k] as possible with [s * 10^(n-k)] of Number
    value [x], and is the nearest to [x] among those. *)
Fixpoint shortest_from (x : number) (num den : positive) (n0 : Z)
    (ks : list Z) : N * Z :=
  match ks with
  | [] => (Z.to_N (Zpos num / Zpos den), n0)
  | k :: rest =>
      match round_trips x n0 k (candidates num den n0 k) with
      | Some c =>
          if (c =? 10 ^ Z.to_N k)%N then (1%N, n0 + 1) else (c, n0)
      | None =>
          match rest with
          | [] => (hd 0%N (candidates num den n0 k), n0)
          | _ => shortest_from x num den n0 rest
          end
      end
  end.

Definition shortest_decimal (m : positive) (e : Z) : N * Z :=
  let '(num, den) :=
    match e with
    | Zneg k => (m, 2 ^ k)%positive
    | Zpos k => (m * 2 ^ k, 1)%positive
    | Z0 => (m, 1%positive)
    end in
  let n0 := decimal_magnitude num den in
  shortest_from (S754_finite false m e) num den n0
    (map Z.of_nat (seq 1 17)).

Definition format_decimal (s : N) (n : Z) : jsstring :=
  let digits := decimal_digits s in
  let k := Z.of_nat (List.length digits) in
  let zero := cu "0" in
  if (k <=? n) && (n <=? 21) then
    digits ++ repeat zero (Z.to_nat (n - k))
  else if (0 <? n) && (n <=? 21) then
    firstn (Z.to_nat n) digits ++ js "." ++ skipn (Z.to_nat n) digits
  else if (-6 <? n) && (n <=? 0) then
    js "0." ++ repeat zero (Z.to_nat (- n)) ++ digits
  else
    let e := n - 1 in
    let sign := if e <? 0 then js "-" else js "+" in
    let exponent := decimal_digits (Z.to_N (Z.abs e)) in
    if k =? 1 then digits ++ js "e" ++ sign ++ exponent
    else firstn 1 digits ++ js "." ++ skipn 1 digits
         ++ js "e" ++ sign ++ exponent.

(** [String(x)] for a number [x] (Number::toString, radix 10). *)
Definition NumberToString (x : number) : jsstring :=
  match x with
  | S754_nan => js "NaN"
  | S754_zero _ => js "0"
  | S754_infinity s => if s then js "-Infinity" else js "Infinity"
  | S754_finite s m e =>
      let '(d, n) := shortest_decimal m e in
      (if s then js "-" else []) ++ format_decimal d n
  end.

(** *** Values *)

(** The values [parseNum] accepts: [string | number | null | undefined]. *)
Inductive js_value :=
  | VUndefined
  | VNull
  | VString (s : jsstring)
  | VNumber (n : number).

(** [a === b]. *)
Definition strict_equals (a b : js_value) : bool :=
  match a, b with
  | VUndefined, VUndefined => true
  | VNull, VNull => true
  | VString s, VString t => jsstring_eqb s t
  | VNumber x, VNumber y => num_eq x y
  | _, _ => false
  end.

(** [String(v)]. *)
Definition ToString (v : js_value) : jsstring :=
  match v with
  | VUndefined => js "undefined"
  | VNull => js "null"
  | VString s => s
  | VNumber n => NumberToString n
  end.

(** [Array.prototype.reduce] without an initial value: the first element
    starts the accumulator; an empty array raises a TypeError ([None]). *)
Definition reduce {A : Type} (f : A -> A -> A) (l : list A) : option A :=
  match l with
  | [] => None
  | a :: rest => Some (fold_left f rest a)
  end.

End JS.

(** ** [src/utils/formatting]: [parseNum] *)

Module Formatting.
Import JS.

Definition parseNum (v : js_value) : number :=
  if strict_equals v VUndefined || strict_equals v VNull
     || strict_equals v (VString (js ""))
  then pos_zero
  else
    let cleanedString :=
      replace_first (cu ",") (js ".") (remove_class_global (ToString v)) in
    let number := StringToNumber cleanedString in
    if isNaN number then pos_zero else number.

End Formatting.

(** ** [TaxPlanner2026.tsx]: the calculation of the component

    The component keeps nine strings in its state and recomputes everything
    below on every render.  [useMemo] caches a value until one of the listed
    dependencies changes; every memoised computation lists all the values it
    reads, so each is the plain function of the state written here. *)

Module TaxPlanner2026.
Import JS Formatting.
Local Open Scope string_scope.

(** The numeric literal [0.05]. *)
Definition VAT5 : number := of_decimal false 5 (-2).

Record State := {
  revTrainings : jsstring;
  revCamps : jsstring;
  revRoyalty : jsstring;
  revGoods : jsstring;
  usnProfitExpenses : jsstring;
  ausnProfitExpenses : jsstring;
  prevYearRevenue : jsstring;
  vatThreshold : jsstring;
  psnPatentCost : jsstring
}.

(** The initial state of the form. *)
Definition initialState : State := {|
  revTrainings := js "8000000";
  revCamps := js "0";
  revRoyalty := js "6000000";
  revGoods := js "1000000";
  usnProfitExpenses := js "1200000";
  ausnProfitExpenses := js "1200000";
  prevYearRevenue := js "15000000";
  vatThreshold := js "10000000";
  psnPatentCost := js "200000"
|}.

Record Totals := {
  trainings : number;
  camps : number;
  royalty : number;
  goods : number;
  sport : number;
  taxable : number;
  total : number
}.

Definition totals (st : State) : Totals :=
  let trainings := parseNum (VString (revTrainings st)) in
  let camps := parseNum (VString (revCamps st)) in
  let royalty := parseNum (VString (revRoyalty st)) in
  let goods := parseNum (VString (revGoods st)) in
  let sport := add trainings camps in
  let taxable := add royalty goods in
  let total := add sport taxable in
  {| trainings := trainings; camps := camps; royalty := royalty;
     goods := goods; sport := sport; taxable := taxable; total := total |}.

Definition isVatPayer (st : State) : bool :=
  gt (parseNum (VString (prevYearRevenue st)))
     (parseNum (VString (vatThreshold st))).

(** A scenario object; [components] keeps the properties in the order of
    the object literal. *)
Record Scenario := {
  key : string;
  label : string;
  components : list (string * number);
  totalTax : number
}.

Definition usn6 (st : State) : Scenario :=
  let usnTax := mul (taxable (totals st)) (of_decimal false 6 (-2)) in
  let vat := if isVatPayer st then mul (taxable (totals st)) VAT5
             else pos_zero in
  {| key := "usn6";
     label := "ПСН (спорт) + УСН 6% + НДС 5%";
     components :=
       [("Стоимость патента", parseNum (VString (psnPatentCost st)));
        ("УСН 6%", usnTax); ("НДС 5%", vat)];
     totalTax := add (add (parseNum (VString (psnPatentCost st))) usnTax) vat
  |}.

(** [base] of the second scenario:
    [Math.max(0, totals.taxable - parseNum(usnProfitExpenses))]. *)
Definition usn15_base (st : State) : number :=
  Math_max [pos_zero;
            sub (taxable (totals st))
                (parseNum (VString (usnProfitExpenses st)))].

Definition usn15 (st : State) : Scenario :=
  let base := usn15_base st in
  let usnTax := mul base (of_decimal false 15 (-2)) in
  let vat := if isVatPayer st then mul (taxable (totals st)) VAT5
             else pos_zero in
  {| key := "usn15";
     label := "ПСН (спорт) + УСН 15% + НДС 5%";
     components :=
       [("Стоимость патента", parseNum (VString (psnPatentCost st)));
        ("УСН 15%", usnTax); ("НДС 5%", vat)];
     totalTax := add (add (parseNum (VString (psnPatentCost st))) usnTax) vat
  |}.

Definition ausn8 (st : State) : Scenario :=
  let tax := mul (total (totals st)) (of_decimal false 8 (-2)) in
  {| key := "ausn8";
     label := "Всё на АУСН 8% (доходы)";
     components := [("АУСН 8%", tax)];
     totalTax := tax |}.

(** [base] of the fourth scenario:
    [Math.max(0, totals.total - parseNum(ausnProfitExpenses))]. *)
Definition ausn20_base (st : State) : number :=
  Math_max [pos_zero;
            sub (total (totals st))
                (parseNum (VString (ausnProfitExpenses st)))].

Definition ausn20 (st : State) : Scenario :=
  let base := ausn20_base st in
  let tax := mul base (of_decimal false 20 (-2)) in
  {| key := "ausn20";
     label := "Всё на АУСН 20% (прибыль)";
     components := [("АУСН 20%", tax)];
     totalTax := tax |}.

Definition scenarios (st : State) : list Scenario :=
  [usn6 st; usn15 st; ausn8 st; ausn20 st].

(** The callback of the reduction: [(a, b) => a.totalTax < b.totalTax ? a : b]. *)
Definition pick (a b : Scenario) : Scenario :=
  if lt (totalTax a) (totalTax b) then a else b.

Definition best (st : State) : option Scenario :=
  reduce pick (scenarios st).

Record ChartDatum := {
  name : string;
  value : number
}.

Definition chartData (st : State) : list ChartDatum :=
  map (fun s => {| name := label s; value := Math_round (totalTax s) |})
      (scenarios st).

End TaxPlanner2026.

(** ** The formulas of the specification and the inputs of its examples *)

Module Spec.
Import JS Formatting TaxPlanner2026.

(** A decimal integer as a number. *)
Definition whole (n : N) : number := of_decimal false n 0.

(** patent + taxable * 0.06 + (taxable * 0.05 if VAT payer, else 0). *)
Definition usn6_total (patent taxable : number) (vatPayer : bool) : number :=
  add (add patent (mul taxable (of_decimal false 6 (-2))))
      (if vatPayer then mul taxable (of_decimal false 5 (-2)) else pos_zero).

(** patent + max(0, taxable - expenses) * 0.15
    + (taxable * 0.05 if VAT payer, else 0). *)
Definition usn15_total (patent taxable expenses : number) (vatPayer : bool)
  : number :=
  add (add patent
           (mul (Math_max [pos_zero; sub taxable expenses])
                (of_decimal false 15 (-2))))
      (if vatPayer then mul taxable (of_decimal false 5 (-2)) else pos_zero).

(** total * 0.08. *)
Definition ausn8_total (total : number) : number :=
  mul total (of_decimal false 8 (-2)).

(** max(0, total - expenses) * 0.20. *)
Definition ausn20_total (total expenses : number) : number :=
  mul (Math_max [pos_zero; sub total expenses]) (of_decimal false 20 (-2)).

(** [b] is the first scenario of [l] with the least total: none is below
    it and every scenario before it is strictly above. *)
Definition first_minimum (l : list Scenario) (b : Scenario) : Prop :=
  exists i, nth_error l i = Some b /\
    forall j s, nth_error l j = Some s ->
      le (totalTax b) (totalTax s) = true /\
      ((j < i)%nat -> lt (totalTax b) (totalTax s) = true).

(** [b] is the last scenario of [l] with the least total: none is below
    it and every scenario after it is strictly above. *)
Definition last_minimum (l : list Scenario) (b : Scenario) : Prop :=
  exists i, nth_error l i = Some b /\
    forall j s, nth_error l j = Some s ->
      le (totalTax b) (totalTax s) = true /\
      ((i < j)%nat -> lt (totalTax b) (totalTax s) = true).

(** The reduction of [best] run on the rounded chart values instead. *)
Definition pick_rounded (a b : Scenario) : Scenario :=
  if lt (Math_round (totalTax a)) (Math_round (totalTax b)) then a else b.

(** A code unit that is neither in the class removed by [parseNum] nor a
    comma. *)
Definition plain (c : code_unit) : Prop :=
  in_class_s_or_nbsp c = false /\ c <> cu ",".

(** A non-negative finite amount, as the data model describes the fields. *)
Definition is_amount (x : number) : bool :=
  match x with
  | S754_zero false | S754_finite false _ _ => true
  | _ => false
  end.

(** A positive finite number, as the rates are. *)
Definition is_rate (x : number) : bool :=
  match x with
  | S754_finite false _ _ => true
  | _ => false
  end.

(** Zero, positive or +Infinity. *)
Definition not_below_zero (x : number) : Prop :=
  isNaN x = false /\ sign_bit x = false.

(** Every field of the form left empty. *)
Definition emptyState : State := {|
  revTrainings := []; revCamps := []; revRoyalty := []; revGoods := [];
  usnProfitExpenses := []; ausnProfitExpenses := [];
  prevYearRevenue := []; vatThreshold := []; psnPatentCost := []
|}.

(** Royalty of 10 and nothing else: the totals are 0.6, 1.5, 0.8 and 2. *)
Definition smallState : State := {|
  revTrainings := js "0"; revCamps := js "0";
  revRoyalty := js "10"; revGoods := js "0";
  usnProfitExpenses := js "0"; ausnProfitExpenses := js "0";
  prevYearRevenue := js "0"; vatThreshold := js "0"; psnPatentCost := js "0"
|}.

(** A negative royalty and nothing else. *)
Definition negativeRoyaltyState : State := {|
  revTrainings := js "0"; revCamps := js "0";
  revRoyalty := js "-100"; revGoods := js "0";
  usnProfitExpenses := js "0"; ausnProfitExpenses := js "0";
  prevYearRevenue := js "0"; vatThreshold := js "0"; psnPatentCost := js "0"
|}.

(** The initial form with expenses above the revenue. *)
Definition lossState : State := {|
  revTrainings := js "8000000"; revCamps := js "0";
  revRoyalty := js "6000000"; revGoods := js "1000000";
  usnProfitExpenses := js "9000000"; ausnProfitExpenses := js "99000000";
  prevYearRevenue := js "15000000"; vatThreshold := js "10000000";
  psnPatentCost := js "200000"
|}.

(** The initial form with the previous year's revenue at the threshold. *)
Definition thresholdState : State := {|
  revTrainings := js "8000000"; revCamps := js "0";
  revRoyalty := js "6000000"; revGoods := js "1000000";
  usnProfitExpenses := js "1200000"; ausnProfitExpenses := js "1200000";
  prevYearRevenue := js "10000000"; vatThreshold := js "10000000";
  psnPatentCost := js "0"
|}.

(** Trainings and the AUSN expenses both infinite: the last total is NaN. *)
Definition infiniteState : State := {|
  revTrainings := js "Infinity"; revCamps := js "0";
  revRoyalty := js "0"; revGoods := js "0";
  usnProfitExpenses := js "0"; ausnProfitExpenses := js "Infinity";
  prevYearRevenue := js "0"; vatThreshold := js "0"; psnPatentCost := js "0"
|}.

End Spec.

(** ** [TaxPlanner2026.tsx]: the hooks and the summary card

    The component function runs at every render.  What [useMemo] keeps from
    one render to the next is written out here: a cell per call with the
    dependencies and the value of the last computation.  Dependencies are
    compared with [Object.is]: strings and booleans by value, the [totals]
    object by reference. *)

Module Render.
Import JS Formatting TaxPlanner2026.
Local Open Scope string_scope.

(** The [totals] object and its identity. *)
Record TotalsRef := {
  ref : nat;
  fields : Totals
}.

(** [useMemo(create, deps)]: the cell after the call, the value returned and
    whether [create] was called. *)
Definition useMemo {D V : Type} (same : D -> D -> bool)
    (cell : option (D * V)) (deps : D) (create : V)
  : option (D * V) * V * bool :=
  match cell with
  | Some (old, v) =>
      if same old deps then (cell, v, false)
      else (Some (deps, create), create, true)
  | None => (Some (deps, create), create, true)
  end.

(** The bodies of the memoised computations, as functions of the variables
    their closures read. *)
Definition totals_of (revTrainings revCamps revRoyalty revGoods : jsstring)
  : Totals :=
  let trainings := parseNum (VString revTrainings) in
  let camps := parseNum (VString revCamps) in
  let royalty := parseNum (VString revRoyalty) in
  let goods := parseNum (VString revGoods) in
  let sport := add trainings camps in
  let taxable := add royalty goods in
  let total := add sport taxable in
  {| trainings := trainings; camps := camps; royalty := royalty;
     goods := goods; sport := sport; taxable := taxable; total := total |}.

Definition usn6_of (totals : Totals) (psnPatentCost : jsstring)
    (isVatPayer : bool) : Scenario :=
  let usnTax := mul (taxable totals) (of_decimal false 6 (-2)) in
  let vat := if isVatPayer then mul (taxable totals) VAT5 else pos_zero in
  {| key := "usn6";
     label := "ПСН (спорт) + УСН 6% + НДС 5%";
     components :=
       [("Стоимость патента", parseNum (VString psnPatentCost));
        ("УСН 6%", usnTax); ("НДС 5%", vat)];
     totalTax := add (add (parseNum (VString psnPatentCost)) usnTax) vat
  |}.

Definition usn15_of (totals : Totals) (psnPatentCost usnProfitExpenses : jsstring)
    (isVatPayer : bool) : Scenario :=
  let base :=
    Math_max [pos_zero;
              sub (taxable totals) (parseNum (VString usnProfitExpenses))] in
  let usnTax := mul base (of_decimal false 15 (-2)) in
  let vat := if isVatPayer then mul (taxable totals) VAT5 else pos_zero in
  {| key := "usn15";
     label := "ПСН (спорт) + УСН 15% + НДС 5%";
     components :=
       [("Стоимость патента", parseNum (VString psnPatentCost));
        ("УСН 15%", usnTax); ("НДС 5%", vat)];
     totalTax := add (add (parseNum (VString psnPatentCost)) usnTax) vat
  |}.

Definition ausn8_of (totals : Totals) : Scenario :=
  let tax := mul (total totals) (of_decimal false 8 (-2)) in
  {| key := "ausn8";
     label := "Всё на АУСН 8% (доходы)";
     components := [("АУСН 8%", tax)];
     totalTax := tax |}.

Definition ausn20_of (totals : Totals) (ausnProfitExpenses : jsstring)
  : Scenario :=
  let base :=
    Math_max [pos_zero;
              sub (total totals) (parseNum (VString ausnProfitExpenses))] in
  let tax := mul base (of_decimal false 20 (-2)) in
  {| key := "ausn20";
     label := "Всё на АУСН 20% (прибыль)";
     components := [("АУСН 20%", tax)];
     totalTax := tax |}.

(** The cells of the five [useMemo] calls, in the order of the calls, and
    the next free object reference. *)
Record Hooks := {
  next_ref : nat;
  totals_memo :
    option ((jsstring * jsstring * jsstring * jsstring) * TotalsRef);
  usn6_memo : option ((nat * jsstring * bool) * Scenario);
  usn15_memo : option ((nat * jsstring * jsstring * bool) * Scenario);
  ausn8_memo : option (nat * Scenario);
  ausn20_memo : option ((nat * jsstring) * Scenario)
}.

(** The hooks of a component that has not rendered yet. *)
Definition mount : Hooks := {|
  next_ref := 0%nat;
  totals_memo := None; usn6_memo := None; usn15_memo := None;
  ausn8_memo := None; ausn20_memo := None
|}.

(** [Object.is] on each dependency array. *)
Definition same_totals_deps
    (a b : jsstring * jsstring * jsstring * jsstring) : bool :=
  let '(a1, a2, a3, a4) := a in
  let '(b1, b2, b3, b4) := b in
  jsstring_eqb a1 b1 && jsstring_eqb a2 b2 && jsstring_eqb a3 b3
  && jsstring_eqb a4 b4.

Definition same_usn6_deps (a b : nat * jsstring * bool) : bool :=
  let '(a1, a2, a3) := a in
  let '(b1, b2, b3) := b in
  Nat.eqb a1 b1 && jsstring_eqb a2 b2 && Bool.eqb a3 b3.

Definition same_usn15_deps (a b : nat * jsstring * jsstring * bool) : bool :=
  let '(a1, a2, a3, a4) := a in
  let '(b1, b2, b3, b4) := b in
  Nat.eqb a1 b1 && jsstring_eqb a2 b2 && jsstring_eqb a3 b3 && Bool.eqb a4 b4.

Definition same_ausn20_deps (a b : nat * jsstring) : bool :=
  let '(a1, a2) := a in
  let '(b1, b2) := b in
  Nat.eqb a1 b1 && jsstring_eqb a2 b2.

(** What a render computes before it builds the elements. *)
Record Rendered := {
  r_totals : Totals;
  r_isVatPayer : bool;
  r_scenarios : list Scenario;
  r_best : option Scenario;
  r_chartData : list ChartDatum
}.

(** One run of the component function on the state [st] with the hooks
    [h] of the previous render. *)
Definition render (h : Hooks) (st : State) : Hooks * Rendered :=
  let '(c_totals, totals, created) :=
    useMemo same_totals_deps (totals_memo h)
      (revTrainings st, revCamps st, revRoyalty st, revGoods st)
      {| ref := next_ref h;
         fields := totals_of (revTrainings st) (revCamps st)
                             (revRoyalty st) (revGoods st) |} in
  let next := if created then S (next_ref h) else next_ref h in
  let isVatPayer :=
    gt (parseNum (VString (prevYearRevenue st)))
       (parseNum (VString (vatThreshold st))) in
  let '(c_usn6, usn6, _) :=
    useMemo same_usn6_deps (usn6_memo h)
      (ref totals, psnPatentCost st, isVatPayer)
      (usn6_of (fields totals) (psnPatentCost st) isVatPayer) in
  let '(c_usn15, usn15, _) :=
    useMemo same_usn15_deps (usn15_memo h)
      (ref totals, psnPatentCost st, usnProfitExpenses st, isVatPayer)
      (usn15_of (fields totals) (psnPatentCost st) (usnProfitExpenses st)
                isVatPayer) in
  let '(c_ausn8, ausn8, _) :=
    useMemo Nat.eqb (ausn8_memo h) (ref totals) (ausn8_of (fields totals)) in
  let '(c_ausn20, ausn20, _) :=
    useMemo same_ausn20_deps (ausn20_memo h)
      (ref totals, ausnProfitExpenses st)
      (ausn20_of (fields totals) (ausnProfitExpenses st)) in
  let scenarios := [usn6; usn15; ausn8; ausn20] in
  ({| next_ref := next; totals_memo := c_totals; usn6_memo := c_usn6;
      usn15_memo := c_usn15; ausn8_memo := c_ausn8;
      ausn20_memo := c_ausn20 |},
   {| r_totals := fields totals;
      r_isVatPayer := isVatPayer;
      r_scenarios := scenarios;
      r_best := reduce pick scenarios;
      r_chartData :=
        map (fun s => {| name := label s; value := Math_round (totalTax s) |})
            scenarios |}).

(** The renders of a component from its mount on, one per state. *)
Fixpoint renders (h : Hooks) (sts : list State) : list Rendered :=
  match sts with
  | [] => []
  | st :: rest => let (h', out) := render h st in out :: renders h' rest
  end.

(** [Object.entries(o)] of an object with string keys that are not array
    indices: the properties in insertion order. *)
Definition Object_entries (o : list (string * number))
  : list (string * number) := o.

(** The cards of the summary:
    [Object.entries(best.components).filter(([, v]) => v > 0)]. *)
Definition breakdown (best : Scenario) : list (string * number) :=
  filter (fun kv => gt (snd kv) pos_zero) (Object_entries (components best)).

End Render.

(** ** Notions the further properties are stated with *)

Module Notions.
Import JS Formatting TaxPlanner2026 Spec Render.

(** What a render without any cache computes. *)
Definition fresh (st : State) : Rendered := {|
  r_totals := totals st;
  r_isVatPayer := isVatPayer st;
  r_scenarios := scenarios st;
  r_best := best st;
  r_chartData := chartData st
|}.

(** The cells hold what their bodies give on their dependencies, and the
    scenario cells were computed from the object of the [totals] cell. *)
Definition hooks_consistent (h : Hooks) : Prop :=
  h = mount \/
  exists t c r g o p6 v6 p15 e15 v15 e20,
    totals_memo h = Some ((t, c, r, g), o) /\
    (ref o < next_ref h)%nat /\
    fields o = totals_of t c r g /\
    usn6_memo h = Some ((ref o, p6, v6), usn6_of (fields o) p6 v6) /\
    usn15_memo h
    = Some ((ref o, p15, e15, v15), usn15_of (fields o) p15 e15 v15) /\
    ausn8_memo h = Some (ref o, ausn8_of (fields o)) /\
    ausn20_memo h = Some ((ref o, e20), ausn20_of (fields o) e20).

(** Non-negative finite amounts in the seven fields the scenarios read. *)
Definition amounts_entered (st : State) : Prop :=
  is_amount (parseNum (VString (revTrainings st))) = true /\
  is_amount (parseNum (VString (revCamps st))) = true /\
  is_amount (parseNum (VString (revRoyalty st))) = true /\
  is_amount (parseNum (VString (revGoods st))) = true /\
  is_amount (parseNum (VString (usnProfitExpenses st))) = true /\
  is_amount (parseNum (VString (ausnProfitExpenses st))) = true /\
  is_amount (parseNum (VString (psnPatentCost st))) = true.

(** Neither NaN nor an infinity. *)
Definition is_finite (x : number) : bool :=
  match x with
  | S754_zero _ | S754_finite _ _ _ => true
  | _ => false
  end.

(** The code units of the StrNumericLiteral grammar: digits, the letters of
    hexadecimal digits, of the radix prefixes and of Infinity, the signs and
    the point. *)
Definition grammar_char (c : code_unit) : bool :=
  ((48 <=? c) && (c <=? 57) || (97 <=? c) && (c <=? 102)
   || (65 <=? c) && (c <=? 70)
   || existsb (N.eqb c)
        (js "+-.eExXoObBInity"))%N.

(** The integer a number is, when it is one. *)
Definition integer_value (x : number) : option Z :=
  match x with
  | S754_zero _ => Some 0
  | S754_finite s m e =>
      if 0 <=? e then Some (cond_Zopp s (Zpos m * 2 ^ e))
      else if (Zpos m mod 2 ^ (- e) =? 0)
           then Some (cond_Zopp s (Zpos m / 2 ^ (- e)))
           else None
  | _ => None
  end.

(** Twice the number, in units of [2^-1074]: an integer for every finite
    valid number. *)
Definition doubled_scaled (x : number) : Z :=
  match x with
  | S754_finite s m e => cond_Zopp s (Zpos m * 2 ^ (e + 1075))
  | _ => 0
  end.

(** The form with a negative patent cost. *)
Definition negativePatentState : State := {|
  revTrainings := js "0"; revCamps := js "0";
  revRoyalty := js "1000"; revGoods := js "0";
  usnProfitExpenses := js "0"; ausnProfitExpenses := js "0";
  prevYearRevenue := js "0"; vatThreshold := js "0";
  psnPatentCost := js "-50"
|}.

End Notions.

Import JS Formatting TaxPlanner2026 Spec Render Notions.

(** ** Numbers: validity, signs and order *)

Section FloatValidity.

Local Abbreviation fexp := (SpecFloat.fexp prec emax).
Local Abbreviation emin := (SpecFloat.emin prec emax).

Lemma fexp_monotone a b : a <= b -> fexp a <= fexp b.
Proof. unfold SpecFloat.fexp, SpecFloat.emin, prec, emax; lia. Qed.

Lemma emin_le_fexp a : emin <= fexp a.
Proof. unfold SpecFloat.fexp, SpecFloat.emin, prec, emax; lia. Qed.

Lemma Zdigits2_log2 m : 0 < m -> Zdigits2 m = Z.log2 m + 1.
Proof.
  destruct m as [|p|p]; try lia. intros _. simpl.
  induction p; simpl; try rewrite Pos2Z.inj_succ; try lia.
  - destruct p; simpl in *; lia.
  - destruct p; simpl in *; lia.
Qed.

Lemma Zdigits2_bounds m : 0 < m -> 2 ^ (Zdigits2 m - 1) <= m < 2 ^ Zdigits2 m.
Proof.
  intros H. rewrite (Zdigits2_log2 m H).
  replace (Z.log2 m + 1 - 1) with (Z.log2 m) by lia.
  replace (Z.log2 m + 1) with (Z.succ (Z.log2 m)) by lia.
  apply Z.log2_spec; assumption.
Qed.

Lemma Zdigits2_nonneg m : 0 <= m -> 0 <= Zdigits2 m.
Proof. destruct m; simpl; lia. Qed.

Lemma Zdigits2_pos m : 0 < m -> 0 < Zdigits2 m.
Proof. destruct m; simpl; lia. Qed.

Lemma Zdigits2_unique m d : 0 < d -> 2 ^ (d - 1) <= m < 2 ^ d -> Zdigits2 m = d.
Proof.
  intros Hd H.
  assert (0 < m) by (assert (0 < 2 ^ (d - 1)) by (apply Z.pow_pos_nonneg; lia); lia).
  rewrite Zdigits2_log2 by assumption.
  rewrite (Z.log2_unique m (d - 1)); try lia.
  replace (Z.succ (d - 1)) with d by lia. assumption.
Qed.

Lemma Zdigits2_monotone a b : 0 <= a -> a <= b -> Zdigits2 a <= Zdigits2 b.
Proof.
  intros Ha Hab.
  destruct (Z.eq_dec a 0) as [->|Hn].
  - simpl. apply Zdigits2_nonneg. lia.
  - rewrite !Zdigits2_log2 by lia.
    pose proof (Z.log2_le_mono a b Hab). lia.
Qed.

Lemma Zdigits2_shiftr m n :
  0 < m -> 0 <= n -> 0 < Z.shiftr m n -> Zdigits2 (Z.shiftr m n) = Zdigits2 m - n.
Proof.
  intros Hm Hn Hs.
  rewrite !Zdigits2_log2 by assumption.
  rewrite Z.log2_shiftr by assumption.
  assert (0 <= Z.log2 m - n).
  { destruct (Z.le_gt_cases n (Z.log2 m)) as [|Hlt]; [lia|].
    rewrite Z.shiftr_eq_0 in Hs; lia. }
  lia.
Qed.

Lemma shr_1_m mrs : 0 <= shr_m mrs -> shr_m (shr_1 mrs) = Z.div2 (shr_m mrs).
Proof.
  destruct mrs as [m r s]. simpl. intros H.
  destruct m as [|[p|p|]|p]; try reflexivity; lia.
Qed.

Lemma iter_shr_1_m p : forall mrs,
  0 <= shr_m mrs ->
  shr_m (iter_pos shr_1 p mrs) = Z.shiftr (shr_m mrs) (Zpos p).
Proof.
  induction p as [p IH|p IH|]; intros mrs H; simpl iter_pos.
  - assert (H1 : 0 <= shr_m (shr_1 mrs)).
    { rewrite shr_1_m by assumption. rewrite Z.div2_spec. apply Z.shiftr_nonneg. assumption. }
    rewrite IH.
    + rewrite IH by assumption. rewrite shr_1_m by assumption.
      rewrite Z.div2_spec, !Z.shiftr_shiftr by lia.
      f_equal. lia.
    + rewrite IH by assumption. apply Z.shiftr_nonneg. assumption.
  - rewrite IH.
    + rewrite IH by assumption. rewrite Z.shiftr_shiftr by lia. f_equal. lia.
    + rewrite IH by assumption. apply Z.shiftr_nonneg. assumption.
  - rewrite shr_1_m by assumption. apply Z.div2_spec.
Qed.

Lemma shr_record_of_loc_m m l : shr_m (shr_record_of_loc m l) = m.
Proof. destruct l as [|[]]; reflexivity. Qed.

(** What [shr_fexp] returns on a non-negative significand whose exponent is
    not above the canonical one. *)
Lemma shr_fexp_spec m e l :
  0 <= m -> e <= fexp (Zdigits2 m + e) ->
  let '(mrs, e') := shr_fexp prec emax m e l in
  e' = fexp (Zdigits2 m + e) /\
  0 <= shr_m mrs /\
  (0 < shr_m mrs -> fexp (Zdigits2 (shr_m mrs) + e') = e') /\
  (shr_m mrs = 0 -> e' = emin).
Proof.
  intros Hm He. unfold shr_fexp, shr.
  destruct (fexp (Zdigits2 m + e) - e) as [|n|n] eqn:Hn; try lia.
  - assert (E : fexp (Zdigits2 m + e) = e) by lia.
    rewrite shr_record_of_loc_m.
    split; [lia|]. split; [lia|]. split.
    + intros _. exact E.
    + intros ->. simpl in *. unfold SpecFloat.fexp, SpecFloat.emin, prec, emax in *; lia.
  - rewrite iter_shr_1_m by (rewrite shr_record_of_loc_m; assumption).
    rewrite shr_record_of_loc_m.
    split; [lia|]. split; [|split].
    + apply Z.shiftr_nonneg. assumption.
    + intros Hpos.
      assert (0 < m) by (destruct (Z.eq_dec m 0) as [->|]; [rewrite Z.shiftr_0_l in Hpos; lia | lia]).
      rewrite Zdigits2_shiftr by lia.
      replace (Zdigits2 m - Z.pos n + (e + Z.pos n)) with (Zdigits2 m + e) by lia.
      lia.
    + intros Hz.
      destruct (Z.eq_dec m 0) as [->|Hm0].
      * simpl in *. unfold SpecFloat.fexp, SpecFloat.emin, prec, emax in *; lia.
      * assert (Hlog : Z.log2 m < Z.pos n).
        { apply Z.shiftr_eq_0_iff in Hz. destruct Hz as [|[_ ?]]; lia. }
        pose proof (Zdigits2_log2 m ltac:(lia)).
        unfold SpecFloat.fexp, SpecFloat.emin, prec, emax in *; lia.
Qed.

Lemma round_nearest_even_bounds m l :
  m <= round_nearest_even m l <= m + 1.
Proof.
  unfold round_nearest_even. destruct l as [|[]]; try destruct (Z.even m); lia.
Qed.

(** [binary_round_aux] returns a valid number, and NaN never. *)
Lemma binary_round_aux_valid s m e l :
  0 <= m -> e <= fexp (Zdigits2 m + e) ->
  valid_binary prec emax (binary_round_aux prec emax s m e l) = true /\
  isNaN (binary_round_aux prec emax s m e l) = false.
Proof.
  intros Hm He. unfold binary_round_aux.
  pose proof (shr_fexp_spec m e l Hm He) as H1.
  destruct (shr_fexp prec emax m e l) as [mrs1 e1].
  destruct H1 as (He1 & Hm1 & Hc1 & Hz1).
  set (m1 := round_nearest_even (shr_m mrs1) (loc_of_shr_record mrs1)).
  pose proof (round_nearest_even_bounds (shr_m mrs1) (loc_of_shr_record mrs1)) as Hb.
  fold m1 in Hb.
  assert (Hpre : e1 <= fexp (Zdigits2 m1 + e1)).
  { destruct (Z.eq_dec (shr_m mrs1) 0) as [Hz|Hnz].
    - rewrite (Hz1 Hz). apply emin_le_fexp.
    - rewrite <- (Hc1 ltac:(lia)) at 1. apply fexp_monotone.
      pose proof (Zdigits2_monotone (shr_m mrs1) m1 Hm1 ltac:(lia)). lia. }
  pose proof (shr_fexp_spec m1 e1 loc_Exact ltac:(lia) Hpre) as H2.
  destruct (shr_fexp prec emax m1 e1 loc_Exact) as [mrs2 e2].
  destruct H2 as (He2 & Hm2 & Hc2 & Hz2).
  destruct (shr_m mrs2) as [|p|p] eqn:Hp; try lia.
  - split; reflexivity.
  - destruct (Z.leb_spec e2 (emax - prec)).
    + split; [|reflexivity]. cbn [valid_binary]. unfold bounded, canonical_mantissa.
      specialize (Hc2 ltac:(lia)).
      change (Zdigits2 (Z.pos p)) with (Z.pos (digits2_pos p)) in Hc2.
      rewrite Hc2, Z.eqb_refl. cbn [andb]. apply Z.leb_le. assumption.
    + split; reflexivity.
Qed.


Lemma iter_xO_mul m d : Zpos (Pos.iter xO m d) = Zpos m * 2 ^ Zpos d.
Proof.
  induction d as [|d IH] using Pos.peano_ind.
  - simpl. lia.
  - rewrite Pos.iter_succ, Pos2Z.inj_xO, IH, Pos2Z.inj_succ, Z.pow_succ_r by lia. lia.
Qed.

Lemma shl_align_spec mx ex ex' :
  Zpos (fst (shl_align mx ex ex')) = Zpos mx * 2 ^ (ex - snd (shl_align mx ex ex')) /\
  snd (shl_align mx ex ex') = Z.min ex ex'.
Proof.
  unfold shl_align. destruct (ex' - ex) as [|d|d] eqn:Hd; cbn [fst snd].
  - rewrite Z.sub_diag. simpl. lia.
  - rewrite Z.sub_diag. simpl. lia.
  - rewrite iter_xO_mul. replace (ex - ex') with (Zpos d) by lia. lia.
Qed.

Lemma Zdigits2_mul_pow2 m k : 0 < m -> 0 <= k -> Zdigits2 (m * 2 ^ k) = Zdigits2 m + k.
Proof.
  intros Hm Hk. pose proof (Zdigits2_bounds m Hm) as [Hlo Hhi].
  pose proof (Zdigits2_pos m Hm).
  assert (0 < 2 ^ k) by (apply Z.pow_pos_nonneg; lia).
  apply Zdigits2_unique; [lia|]. split.
  - replace (Zdigits2 m + k - 1) with (Zdigits2 m - 1 + k) by lia.
    rewrite Z.pow_add_r by lia. nia.
  - rewrite Z.pow_add_r by lia. nia.
Qed.

Lemma binary_round_valid s m e :
  valid_binary prec emax (binary_round prec emax s m e) = true /\
  isNaN (binary_round prec emax s m e) = false.
Proof.
  unfold binary_round.
  pose proof (shl_align_spec m e (fexp (Z.pos (digits2_pos m) + e))) as [Hm He].
  destruct (shl_align m e (fexp (Z.pos (digits2_pos m) + e))) as [mz ez].
  cbn [fst snd] in *.
  apply binary_round_aux_valid; [lia|].
  rewrite Hm, Zdigits2_mul_pow2 by lia.
  change (Zdigits2 (Z.pos m)) with (Z.pos (digits2_pos m)).
  replace (Z.pos (digits2_pos m) + (e - ez) + ez) with (Z.pos (digits2_pos m) + e) by lia.
  lia.
Qed.

Lemma binary_normalize_valid m e sz :
  valid_binary prec emax (binary_normalize prec emax m e sz) = true /\
  isNaN (binary_normalize prec emax m e sz) = false.
Proof.
  destruct m; simpl; [split; reflexivity | apply binary_round_valid ..].
Qed.

Lemma add_valid x y :
  valid_binary prec emax x = true -> valid_binary prec emax y = true ->
  valid_binary prec emax (add x y) = true.
Proof.
  intros Hx Hy. unfold add, SFadd.
  destruct x as [sx|sx| |sx mx ex], y as [sy|sy| |sy my ey];
    try destruct sx; try destruct sy; try reflexivity; try assumption;
    apply binary_normalize_valid.
Qed.

Lemma sub_valid x y :
  valid_binary prec emax x = true -> valid_binary prec emax y = true ->
  valid_binary prec emax (sub x y) = true.
Proof.
  intros Hx Hy. unfold sub, SFsub.
  destruct x as [sx|sx| |sx mx ex], y as [sy|sy| |sy my ey];
    try destruct sx; try destruct sy; try reflexivity; try assumption;
    apply binary_normalize_valid.
Qed.

Lemma Zdigits2_pow2 k : 0 <= k -> Zdigits2 (2 ^ k) = k + 1.
Proof.
  intros Hk. apply Zdigits2_unique; [lia|].
  replace (k + 1 - 1) with k by lia. split; [lia|].
  apply Z.pow_lt_mono_r; lia.
Qed.

Lemma Zdigits2_mul a b :
  0 < a -> 0 < b -> Zdigits2 a + Zdigits2 b - 1 <= Zdigits2 (a * b).
Proof.
  intros Ha Hb.
  pose proof (Zdigits2_bounds a Ha) as [Ha1 _].
  pose proof (Zdigits2_bounds b Hb) as [Hb1 _].
  pose proof (Zdigits2_pos a Ha) as Hda.
  pose proof (Zdigits2_pos b Hb) as Hdb.
  assert (H2 : 2 ^ (Zdigits2 a + Zdigits2 b - 2) <= a * b).
  { replace (Zdigits2 a + Zdigits2 b - 2)
      with ((Zdigits2 a - 1) + (Zdigits2 b - 1)) by lia.
    rewrite Z.pow_add_r by lia.
    apply Z.mul_le_mono_nonneg; try assumption; apply Z.pow_nonneg; lia. }
  assert (Hp : 0 <= 2 ^ (Zdigits2 a + Zdigits2 b - 2))
    by (apply Z.pow_nonneg; lia).
  pose proof (Zdigits2_monotone _ _ Hp H2) as Hm.
  rewrite Zdigits2_pow2 in Hm by lia. lia.
Qed.

Lemma mul_valid x y :
  valid_binary prec emax x = true -> valid_binary prec emax y = true ->
  valid_binary prec emax (mul x y) = true.
Proof.
  intros Hx Hy. unfold mul, SFmul.
  destruct x as [sx|sx| |sx mx ex], y as [sy|sy| |sy my ey]; try reflexivity.
  cbn [valid_binary] in Hx, Hy. unfold bounded, canonical_mantissa in Hx, Hy.
  apply andb_prop in Hx, Hy. destruct Hx as [Hx _], Hy as [Hy _].
  apply Z.eqb_eq in Hx, Hy.
  change (Z.pos (digits2_pos mx)) with (Zdigits2 (Z.pos mx)) in Hx.
  change (Z.pos (digits2_pos my)) with (Zdigits2 (Z.pos my)) in Hy.
  apply binary_round_aux_valid; [lia|].
  pose proof (Zdigits2_mul (Z.pos mx) (Z.pos my) ltac:(lia) ltac:(lia)) as Hd.
  pose proof (Zdigits2_pos (Z.pos mx) ltac:(lia)).
  pose proof (Zdigits2_pos (Z.pos my) ltac:(lia)).
  rewrite Pos2Z.inj_mul.
  unfold SpecFloat.fexp, SpecFloat.emin, prec, emax in *. lia.
Qed.

Lemma round_ratio_valid s num den :
  valid_binary prec emax (round_ratio s num den) = true /\
  isNaN (round_ratio s num den) = false.
Proof.
  unfold round_ratio, SFdiv_core_binary.
  set (d1 := Zdigits2 (Z.pos num)). set (d2 := Zdigits2 (Z.pos den)).
  set (e' := Z.min (fexp (d1 + 0 - (d2 + 0))) (0 - 0)).
  set (m' := match 0 - 0 - e' with
             | 0 => Z.pos num
             | Z.pos _ => Z.shiftl (Z.pos num) (0 - 0 - e')
             | Z.neg _ => 0
             end).
  assert (He' : e' <= 0) by (subst e'; lia).
  assert (Hm' : m' = Z.pos num * 2 ^ (- e')).
  { subst m'. replace (0 - 0 - e') with (- e') by lia.
    destruct (- e') as [|p|p] eqn:E; try lia.
    rewrite Z.shiftl_mul_pow2; lia. }
  clearbody m'.
  destruct (Z.div_eucl m' (Z.pos den)) as [q r] eqn:Hqr.
  assert (Hq : q = m' / Z.pos den) by (unfold Z.div; rewrite Hqr; reflexivity).
  assert (0 < 2 ^ (- e')) by (apply Z.pow_pos_nonneg; lia).
  assert (Hq0 : 0 <= q) by (subst q; apply Z.div_pos; nia).
  pose proof (Zdigits2_bounds (Z.pos num) ltac:(lia)) as [Hn1 Hn2]. fold d1 in Hn1, Hn2.
  pose proof (Zdigits2_bounds (Z.pos den) ltac:(lia)) as [Hd1 Hd2]. fold d2 in Hd1, Hd2.
  pose proof (Zdigits2_pos (Z.pos num) ltac:(lia)) as Hp1. fold d1 in Hp1.
  pose proof (Zdigits2_pos (Z.pos den) ltac:(lia)) as Hp2. fold d2 in Hp2.
  assert (Hlow : 2 ^ (d1 - 1 - e') <= m').
  { rewrite Hm'. replace (d1 - 1 - e') with (d1 - 1 + - e') by lia.
    rewrite Z.pow_add_r by lia. nia. }
  apply binary_round_aux_valid; [assumption|].
  destruct (Z.eq_dec q 0) as [Hz|Hnz].
  - subst q. rewrite Hz. cbn [Zdigits2].
    assert (m' < Z.pos den).
    { destruct (Z.lt_ge_cases m' (Z.pos den)); [assumption|].
      assert (1 <= m' / Z.pos den) by (apply Z.div_le_lower_bound; lia). lia. }
    assert (d1 - 1 - e' < d2).
    { apply (Z.pow_lt_mono_r_iff 2); lia. }
    etransitivity; [|apply emin_le_fexp].
    subst e'. unfold SpecFloat.fexp, SpecFloat.emin, prec, emax in *. lia.
  - assert (Hdq : d1 - d2 - e' <= Zdigits2 q).
    { destruct (Z.le_gt_cases 0 (d1 - 1 - e' - d2)) as [Hk|Hk].
      - assert (2 ^ (d1 - 1 - e' - d2) <= q).
        { subst q. apply Z.div_le_lower_bound; [lia|].
          assert (0 < 2 ^ (d1 - 1 - e' - d2)) by (apply Z.pow_pos_nonneg; lia).
          assert (2 ^ (d1 - 1 - e' - d2) * 2 ^ d2 = 2 ^ (d1 - 1 - e')).
          { rewrite <- Z.pow_add_r by lia. f_equal. lia. }
          nia. }
        pose proof (Zdigits2_monotone (2 ^ (d1 - 1 - e' - d2)) q ltac:(lia) ltac:(lia)).
        rewrite Zdigits2_pow2 in * by lia. lia.
      - pose proof (Zdigits2_pos q ltac:(lia)). lia. }
    transitivity (fexp (d1 + 0 - (d2 + 0))); [subst e'; lia|].
    apply fexp_monotone. lia.
Qed.

Lemma of_decimal_valid s m e10 :
  valid_binary prec emax (of_decimal s m e10) = true /\
  isNaN (of_decimal s m e10) = false.
Proof.
  unfold of_decimal. destruct m; [split; reflexivity|].
  destruct e10; apply round_ratio_valid.
Qed.


Lemma binary_round_aux_sign s m e l :
  isNaN (binary_round_aux prec emax s m e l) = false ->
  sign_bit (binary_round_aux prec emax s m e l) = s.
Proof.
  unfold binary_round_aux.
  destruct (shr_fexp prec emax m e l) as [mrs1 e1].
  destruct (shr_fexp prec emax _ e1 loc_Exact) as [mrs2 e2].
  destruct (shr_m mrs2); [reflexivity| |discriminate].
  destruct (e2 <=? emax - prec); reflexivity.
Qed.

Lemma binary_round_sign s m e : sign_bit (binary_round prec emax s m e) = s.
Proof.
  pose proof (binary_round_valid s m e) as [_ Hn]. revert Hn.
  unfold binary_round. destruct (shl_align m e _) as [mz ez].
  apply binary_round_aux_sign.
Qed.

Lemma canonical_lt m1 e1 m2 e2 :
  canonical_mantissa prec emax m1 e1 = true ->
  canonical_mantissa prec emax m2 e2 = true ->
  e1 < e2 -> Zpos m1 < Zpos m2 * 2 ^ (e2 - e1).
Proof.
  unfold canonical_mantissa. intros H1 H2 Hlt.
  apply Z.eqb_eq in H1, H2.
  change (Z.pos (digits2_pos m1)) with (Zdigits2 (Z.pos m1)) in H1.
  change (Z.pos (digits2_pos m2)) with (Zdigits2 (Z.pos m2)) in H2.
  pose proof (Zdigits2_bounds (Z.pos m1) ltac:(lia)) as [_ Hhi].
  pose proof (Zdigits2_bounds (Z.pos m2) ltac:(lia)) as [Hlo _].
  pose proof (Zdigits2_pos (Z.pos m2) ltac:(lia)).
  assert (Hd : Zdigits2 (Z.pos m1) + e1 < Zdigits2 (Z.pos m2) + e2).
  { destruct (Z.lt_ge_cases (Zdigits2 (Z.pos m1) + e1) (Zdigits2 (Z.pos m2) + e2)) as [|Hge];
      [assumption|].
    pose proof (fexp_monotone _ _ Hge). lia. }
  assert (2 ^ Zdigits2 (Z.pos m1) <= 2 ^ (Zdigits2 (Z.pos m2) - 1 + (e2 - e1))).
  { apply Z.pow_le_mono_r; lia. }
  rewrite Z.pow_add_r in * by lia.
  assert (0 < 2 ^ (e2 - e1)) by (apply Z.pow_pos_nonneg; lia).
  nia.
Qed.

Lemma finite_lt_diff sx mx ex sy my ey :
  canonical_mantissa prec emax mx ex = true ->
  canonical_mantissa prec emax my ey = true ->
  SFcompare (S754_finite sx mx ex) (S754_finite sy my ey) = Some Lt ->
  cond_Zopp sx (Zpos (fst (shl_align mx ex (Z.min ex ey))))
  - cond_Zopp sy (Zpos (fst (shl_align my ey (Z.min ex ey)))) < 0.
Proof.
  intros Hx Hy Hcmp.
  pose proof (shl_align_spec mx ex (Z.min ex ey)) as [Ex Ex'].
  pose proof (shl_align_spec my ey (Z.min ex ey)) as [Ey Ey'].
  rewrite Ex, Ey, Ex', Ey'. clear Ex Ey Ex' Ey'.
  assert (0 < 2 ^ (ex - Z.min ex (Z.min ex ey))) by (apply Z.pow_pos_nonneg; lia).
  assert (0 < 2 ^ (ey - Z.min ey (Z.min ex ey))) by (apply Z.pow_pos_nonneg; lia).
  unfold SFcompare in Hcmp.
  change (Pos.compare_cont Eq mx my) with (mx ?= my)%positive in Hcmp.
  destruct sx, sy; unfold cond_Zopp; try discriminate; try nia.
  - destruct (Z.compare_spec ex ey) as [E|E|E]; try discriminate.
    + subst ey. rewrite !Z.min_id, !Z.sub_diag in *.
      destruct (Pos.compare_spec mx my); try discriminate; rewrite ?Z.pow_0_r; lia.
    + pose proof (canonical_lt _ _ _ _ Hy Hx E).
      replace (Z.min ex (Z.min ex ey)) with ey by lia.
      replace (Z.min ey (Z.min ex ey)) with ey by lia.
      rewrite Z.sub_diag, Z.pow_0_r. lia.
  - destruct (Z.compare_spec ex ey) as [E|E|E]; try discriminate.
    + subst ey. rewrite !Z.min_id, !Z.sub_diag in *.
      destruct (Pos.compare_spec mx my); try discriminate; rewrite ?Z.pow_0_r; lia.
    + pose proof (canonical_lt _ _ _ _ Hx Hy E).
      replace (Z.min ex (Z.min ex ey)) with ex by lia.
      replace (Z.min ey (Z.min ex ey)) with ex by lia.
      rewrite Z.sub_diag, Z.pow_0_r. lia.
Qed.

(** On valid numbers [x < y] makes [x - y] a number with the sign bit set. *)
Lemma sub_lt_sign x y :
  valid_binary prec emax x = true -> valid_binary prec emax y = true ->
  lt x y = true -> isNaN (sub x y) = false /\ sign_bit (sub x y) = true.
Proof.
  intros Hx Hy. unfold lt, SFltb.
  destruct (SFcompare x y) as [[]|] eqn:Hcmp; try discriminate. intros _.
  destruct x as [sx|sx| |sx mx ex], y as [sy|sy| |sy my ey];
    try discriminate Hcmp.
  all: try (destruct sx; try destruct sy; try discriminate Hcmp; split; reflexivity).
  cbn [valid_binary] in Hx, Hy. unfold bounded in Hx, Hy.
  apply andb_prop in Hx, Hy. destruct Hx as [Hx _], Hy as [Hy _].
  pose proof (finite_lt_diff _ _ _ _ _ _ Hx Hy Hcmp) as Hd.
  unfold sub, SFsub. cbv zeta.
  destruct (cond_Zopp sx _ - cond_Zopp sy _) as [|p|p]; try lia.
  cbn [binary_normalize].
  split; [apply binary_round_valid | apply binary_round_sign].
Qed.

(** [Math.max(0, v)]. *)
Lemma Math_max_zero v :
  Math_max [pos_zero; v] =
  if isNaN v then NaN else if lt pos_zero v then v else pos_zero.
Proof.
  unfold Math_max. cbn [Math_max_from isNaN pos_zero is_pos_zero is_neg_zero andb].
  destruct v as [[]|[]| |[] m e]; reflexivity.
Qed.

Lemma Math_max_zero_negative v :
  isNaN v = false -> sign_bit v = true -> Math_max [pos_zero; v] = pos_zero.
Proof.
  rewrite Math_max_zero. destruct v as [[]|[]| |[] m e]; cbn; congruence.
Qed.

Lemma Math_max_zero_sign v : sign_bit (Math_max [pos_zero; v]) = false.
Proof.
  rewrite Math_max_zero. destruct v as [[]|[]| |[] m e]; reflexivity.
Qed.

Lemma mul_sign x y :
  sign_bit x = false -> sign_bit y = false -> sign_bit (mul x y) = false.
Proof.
  intros Hx Hy. unfold mul, SFmul.
  destruct x as [sx|sx| |sx mx ex], y as [sy|sy| |sy my ey];
    cbn [sign_bit] in *; subst; try reflexivity.
  destruct (isNaN (binary_round_aux prec emax (xorb false false)
       (Z.pos (mx * my)) (ex + ey) loc_Exact)) eqn:E.
  - destruct (binary_round_aux _ _ _ _ _ _); try discriminate. reflexivity.
  - apply binary_round_aux_sign. assumption.
Qed.

Lemma sign_bit_not_lt_zero x : sign_bit x = false -> lt x pos_zero = false.
Proof. destruct x as [[]|[]| |[] m e]; cbn; congruence. Qed.

(** The order of numbers that are not NaN. *)
Lemma SFcompare_antisym x y :
  SFcompare y x = option_map CompOpp (SFcompare x y).
Proof.
  destruct x as [sx|sx| |sx mx ex], y as [sy|sy| |sy my ey];
    try destruct sx; try destruct sy; try reflexivity; cbn [SFcompare option_map].
  all: change (Pos.compare_cont Eq mx my) with (mx ?= my)%positive;
       change (Pos.compare_cont Eq my mx) with (my ?= mx)%positive;
       rewrite (Z.compare_antisym ex ey), (Pos.compare_antisym mx my);
       destruct (ex ?= ey); cbn; try reflexivity;
       destruct (mx ?= my)%positive; reflexivity.
Qed.

Lemma num_lt_le x y : lt x y = true -> le x y = true.
Proof. unfold lt, le, SFltb, SFleb. destruct (SFcompare x y) as [[]|]; congruence. Qed.

Lemma num_le_refl x : isNaN x = false -> le x x = true.
Proof.
  unfold le, SFleb. destruct x as [[]|[]| |[] m e]; cbn; try congruence;
    rewrite Z.compare_refl; change (Pos.compare_cont Eq m m) with (m ?= m)%positive;
    rewrite Pos.compare_refl; reflexivity.
Qed.

Lemma num_not_lt_le x y :
  isNaN x = false -> isNaN y = false -> lt x y = false -> le y x = true.
Proof.
  unfold lt, le, SFltb, SFleb. rewrite (SFcompare_antisym x y).
  destruct x as [sx|sx| |sx mx ex], y as [sy|sy| |sy my ey]; try discriminate;
    destruct (SFcompare _ _) as [[]|] eqn:E; cbn; try congruence;
    try discriminate E.
Qed.

Lemma num_le_trans x y z : le x y = true -> le y z = true -> le x z = true.
Proof.
  unfold le, SFleb.
  destruct x as [sx|sx| |sx mx ex], y as [sy|sy| |sy my ey],
           z as [sz|sz| |sz mz ez];
    try destruct sx; try destruct sy; try destruct sz; cbn; try congruence.
  all: change (Pos.compare_cont Eq mx my) with (mx ?= my)%positive;
       change (Pos.compare_cont Eq my mz) with (my ?= mz)%positive;
       change (Pos.compare_cont Eq mx mz) with (mx ?= mz)%positive.
  all: destruct (Z.compare_spec ex ey), (Z.compare_spec ey ez),
         (Z.compare_spec ex ez); subst; try lia; try congruence;
       destruct (Pos.compare_spec mx my), (Pos.compare_spec my mz),
         (Pos.compare_spec mx mz); subst; cbn; try lia; congruence.
Qed.

End FloatValidity.

(** ** Strings: the grammar of numeric literals and the cleaning *)

Section StringLemmas.

Ltac bool_false :=
  repeat match goal with
  | |- (_ || _) = false => apply orb_false_intro
  | |- (_ =? _)%N = false => apply N.eqb_neq; lia
  | |- (_ <=? _)%N && (_ <=? _)%N = false =>
      (apply andb_false_intro1; apply N.leb_gt; lia)
      || (apply andb_false_intro2; apply N.leb_gt; lia)
  end.

Lemma range_plain c lo hi :
  ((lo <=? c) && (c <=? hi))%N = true -> (48 <= lo)%N -> (hi <= 102)%N -> plain c.
Proof.
  intros H Hlo Hhi. apply andb_prop in H. destruct H as [H1 H2].
  apply N.leb_le in H1, H2.
  split; [|unfold cu; cbn [N_of_ascii]; cbn; lia].
  unfold in_class_s_or_nbsp, is_white_space. bool_false.
Qed.

Lemma digit_value_plain radix c d : digit_value radix c = Some d -> plain c.
Proof.
  unfold digit_value. intros H.
  destruct ((48 <=? c) && (c <=? 57))%N eqn:E1;
    [eapply range_plain; [eassumption|lia..]|].
  destruct ((97 <=? c) && (c <=? 102))%N eqn:E2;
    [eapply range_plain; [eassumption|lia..]|].
  destruct ((65 <=? c) && (c <=? 70))%N eqn:E3;
    [eapply range_plain; [eassumption|lia..]|discriminate].
Qed.

Lemma scan_digits_plain radix s :
  Forall plain (snd (scan_digits radix s)) -> Forall plain s.
Proof.
  induction s as [|c t IH]; cbn [scan_digits]; [auto|].
  destruct (digit_value radix c) eqn:E; [|auto].
  destruct (scan_digits radix t) as [ds r]. cbn [snd] in *.
  intros H. constructor; [eapply digit_value_plain; eassumption | auto].
Qed.

Lemma scan_digits_all_plain radix s ds :
  scan_digits radix s = (ds, []) -> Forall plain s.
Proof.
  intros H. apply (scan_digits_plain radix). rewrite H. constructor.
Qed.

Lemma plain_cu a :
  in_class_s_or_nbsp (cu a) = false -> cu a <> cu "," -> plain (cu a).
Proof. split; assumption. Qed.

Lemma eqb_plain c a :
  (c =? cu a)%N = true -> in_class_s_or_nbsp (cu a) = false -> cu a <> cu "," ->
  plain c.
Proof. intros H%N.eqb_eq. subst. apply plain_cu. Qed.

Ltac plain_char :=
  match goal with
  | H : (?c =? cu ?a)%N = true |- plain ?c =>
      apply (eqb_plain c a H); [reflexivity | discriminate]
  end.

Lemma parse_ExponentPart_plain s e :
  parse_ExponentPart s = Some e -> Forall plain s.
Proof.
  destruct s as [|c t]; cbn [parse_ExponentPart]; [constructor|].
  destruct ((c =? cu "e") || (c =? cu "E"))%N eqn:Ec; [|discriminate].
  assert (Hc : plain c).
  { apply orb_prop in Ec. destruct Ec; plain_char. }
  assert (Ht : forall u, match scan_digits 10 u with
                         | (_ :: _, []) => True | _ => False end -> Forall plain u).
  { intros u Hu. destruct (scan_digits 10 u) as [[|d ds] [|? ?]] eqn:E; try contradiction.
    eapply scan_digits_all_plain; eassumption. }
  destruct t as [|d u].
  - cbn. discriminate.
  - destruct (d =? cu "+")%N eqn:Ep; [|destruct (d =? cu "-")%N eqn:Em].
    + intros H. constructor; [assumption|]. constructor; [plain_char|].
      apply Ht. destruct (scan_digits 10 u) as [[|] [|]]; try discriminate; exact I.
    + intros H. constructor; [assumption|]. constructor; [plain_char|].
      apply Ht. destruct (scan_digits 10 u) as [[|] [|]]; try discriminate; exact I.
    + intros H. constructor; [assumption|].
      apply Ht. destruct (scan_digits 10 (d :: u)) as [[|] [|]]; try discriminate; exact I.
Qed.

Lemma jsstring_eqb_eq s t : jsstring_eqb s t = true -> s = t.
Proof. unfold jsstring_eqb. destruct (list_eq_dec N.eq_dec s t); congruence. Qed.

Lemma Forall_plain_js_Infinity : Forall plain (js "Infinity").
Proof. repeat constructor; discriminate. Qed.

Lemma parse_StrUnsignedDecimalLiteral_plain neg s l :
  parse_StrUnsignedDecimalLiteral neg s = Some l -> Forall plain s.
Proof.
  unfold parse_StrUnsignedDecimalLiteral.
  destruct (jsstring_eqb s (js "Infinity")) eqn:Ei.
  - intros _. apply jsstring_eqb_eq in Ei. subst. apply Forall_plain_js_Infinity.
  - pose proof (scan_digits_plain 10 s) as Hs.
    destruct (scan_digits 10 s) as [ip r1]. cbn [snd] in Hs.
    assert (Hr : forall fp r2,
      match r1 with
      | c :: t => if (c =? cu ".")%N then scan_digits 10 t else ([], r1)
      | [] => ([], r1)
      end = (fp, r2) -> Forall plain r2 -> Forall plain r1).
    { intros fp r2 H Hr2. destruct r1 as [|c t]; [constructor|].
      destruct (c =? cu ".")%N eqn:Ec.
      - constructor; [plain_char|].
        apply (scan_digits_plain 10). rewrite H. assumption.
      - injection H as _ <-. assumption. }
    destruct (match r1 with [] => _ | _ => _ end) as [fp r2].
    specialize (Hr fp r2 eq_refl).
    intros H. apply Hs, Hr.
    destruct ip, fp; try discriminate;
      destruct (parse_ExponentPart r2) eqn:E; try discriminate;
      eapply parse_ExponentPart_plain; eassumption.
Qed.

Lemma parse_StrDecimalLiteral_plain s l :
  parse_StrDecimalLiteral s = Some l -> Forall plain s.
Proof.
  destruct s as [|c t]; cbn [parse_StrDecimalLiteral]; [discriminate|].
  destruct (c =? cu "+")%N eqn:Ep; [|destruct (c =? cu "-")%N eqn:Em].
  - intros H. constructor; [plain_char|].
    eapply parse_StrUnsignedDecimalLiteral_plain; eassumption.
  - intros H. constructor; [plain_char|].
    eapply parse_StrUnsignedDecimalLiteral_plain; eassumption.
  - apply parse_StrUnsignedDecimalLiteral_plain.
Qed.

Lemma non_decimal_radix_plain c radix : non_decimal_radix c = Some radix -> plain c.
Proof.
  unfold non_decimal_radix.
  destruct ((c =? cu "x") || (c =? cu "X"))%N eqn:E1;
    [|destruct ((c =? cu "o") || (c =? cu "O"))%N eqn:E2;
      [|destruct ((c =? cu "b") || (c =? cu "B"))%N eqn:E3; [|discriminate]]].
  all: intros _; apply orb_prop in E1 || apply orb_prop in E2 || apply orb_prop in E3.
  all: match goal with H : _ \/ _ |- _ => destruct H end; plain_char.
Qed.

(** A string of the StrNumericLiteral grammar holds neither white space nor
    a comma. *)
Lemma parse_StrNumericLiteral_plain s l :
  parse_StrNumericLiteral s = Some l -> Forall plain s.
Proof.
  unfold parse_StrNumericLiteral.
  destruct s as [|z [|c t]]; try apply parse_StrDecimalLiteral_plain.
  destruct (z =? cu "0")%N eqn:Ez; [|apply parse_StrDecimalLiteral_plain].
  destruct (non_decimal_radix c) as [radix|] eqn:Er;
    [|apply parse_StrDecimalLiteral_plain].
  unfold parse_NonDecimal.
  destruct (scan_digits radix t) as [[|d ds] [|? ?]] eqn:E; try discriminate.
  intros _. constructor; [plain_char|].
  constructor; [eapply non_decimal_radix_plain; eassumption|].
  eapply scan_digits_all_plain; eassumption.
Qed.


Lemma plain_not_white c : plain c -> is_white_space c = false.
Proof.
  unfold plain, in_class_s_or_nbsp. intros [H _].
  apply orb_false_elim in H. tauto.
Qed.

Lemma trim_start_split s :
  exists pre, s = pre ++ trim_start s /\ Forall (fun c => is_white_space c = true) pre.
Proof.
  induction s as [|c t [pre [E F]]]; cbn [trim_start].
  - exists []. split; [reflexivity|constructor].
  - destruct (is_white_space c) eqn:Ec.
    + exists (c :: pre). split; [cbn; congruence|constructor; assumption].
    + exists []. split; [reflexivity|constructor].
Qed.

(** [trim] removes a run of white space at each end. *)
Lemma trim_split s :
  exists pre post, s = pre ++ trim s ++ post /\
    Forall (fun c => is_white_space c = true) pre /\
    Forall (fun c => is_white_space c = true) post.
Proof.
  unfold trim.
  destruct (trim_start_split s) as [pre [E1 F1]].
  destruct (trim_start_split (rev (trim_start s))) as [post [E2 F2]].
  exists pre, (rev post). split; [|split; [assumption|]].
  - rewrite <- rev_app_distr, <- E2, rev_involutive. assumption.
  - apply Forall_rev. assumption.
Qed.

Lemma trim_start_plain s : Forall plain s -> trim_start s = s.
Proof.
  destruct s as [|c t]; [reflexivity|]. intros H. inversion H; subst.
  cbn [trim_start]. rewrite plain_not_white by assumption. reflexivity.
Qed.

Lemma trim_plain s : Forall plain s -> trim s = s.
Proof.
  intros H. unfold trim. rewrite (trim_start_plain s H).
  rewrite trim_start_plain by (apply Forall_rev; assumption).
  apply rev_involutive.
Qed.

Lemma remove_class_global_white s :
  Forall (fun c => is_white_space c = true) s -> remove_class_global s = [].
Proof.
  unfold remove_class_global, in_class_s_or_nbsp.
  induction 1 as [|c t Hc _ IH]; [reflexivity|].
  cbn [filter]. rewrite Hc. cbn. assumption.
Qed.

Lemma remove_class_global_plain s : Forall plain s -> remove_class_global s = s.
Proof.
  unfold remove_class_global.
  induction 1 as [|c t [Hc _] _ IH]; [reflexivity|].
  cbn [filter]. rewrite Hc. cbn. congruence.
Qed.

Lemma replace_first_plain r s : Forall plain s -> replace_first (cu ",") r s = s.
Proof.
  induction 1 as [|c t [_ Hc] _ IH]; [reflexivity|].
  cbn [replace_first]. apply N.eqb_neq in Hc. rewrite Hc. congruence.
Qed.

(** The cleaning of [parseNum]: white space removed, first comma replaced. *)
Lemma clean_numeric s :
  isNaN (StringToNumber s) = false ->
  replace_first (cu ",") (js ".") (remove_class_global s) = trim s.
Proof.
  unfold StringToNumber.
  destruct (trim_split s) as [pre [post [E [F1 F2]]]].
  assert (R : remove_class_global s = remove_class_global (trim s)).
  { rewrite E at 1. unfold remove_class_global. rewrite !filter_app.
    fold (remove_class_global pre). fold (remove_class_global post).
    rewrite (remove_class_global_white pre F1), (remove_class_global_white post F2).
    rewrite app_nil_r. reflexivity. }
  rewrite R.
  destruct (trim s) as [|c t] eqn:Et; [reflexivity|].
  destruct (parse_StrNumericLiteral (c :: t)) as [l|] eqn:El; [|discriminate].
  intros _. apply parse_StrNumericLiteral_plain in El.
  rewrite remove_class_global_plain, replace_first_plain by assumption. reflexivity.
Qed.



Lemma parseNum_string s :
  parseNum (VString s) =
  let number :=
    StringToNumber (replace_first (cu ",") (js ".") (remove_class_global s)) in
  if isNaN number then pos_zero else number.
Proof.
  unfold parseNum. cbn [strict_equals orb ToString].
  destruct (jsstring_eqb s (js "")) eqn:E; [|reflexivity].
  apply jsstring_eqb_eq in E. subst. reflexivity.
Qed.

(** A string that [Number] converts to a number other than NaN is converted
    to the same number by [parseNum]. *)
Lemma parseNum_numeric_string s :
  isNaN (StringToNumber s) = false ->
  parseNum (VString s) = StringToNumber s.
Proof.
  intros H. rewrite parseNum_string. cbv zeta.
  rewrite (clean_numeric s H).
  assert (E : StringToNumber (trim s) = StringToNumber s).
  { unfold StringToNumber in *.
    destruct (trim s) as [|c t] eqn:Et; [reflexivity|].
    destruct (parse_StrNumericLiteral (c :: t)) as [l|] eqn:El; [|discriminate].
    rewrite trim_plain by (eapply parse_StrNumericLiteral_plain; eassumption).
    rewrite El. reflexivity. }
  rewrite E, H. reflexivity.
Qed.

Lemma In_trim_start c s :
  In c s -> is_white_space c = false -> In c (trim_start s).
Proof.
  intros Hin Hc. induction s as [|d t IH]; [contradiction|].
  cbn [trim_start]. destruct (is_white_space d) eqn:Ed; [|assumption].
  destruct Hin as [->|Hin]; [congruence|auto].
Qed.

Lemma In_trim c s : In c s -> is_white_space c = false -> In c (trim s).
Proof.
  intros Hin Hc. unfold trim. apply -> in_rev.
  apply In_trim_start; [|assumption]. apply -> in_rev.
  apply In_trim_start; assumption.
Qed.

(** A string with a comma is outside the grammar. *)
Lemma StringToNumber_comma s : In (cu ",") s -> StringToNumber s = NaN.
Proof.
  intros Hin. apply In_trim in Hin; [|reflexivity].
  unfold StringToNumber.
  destruct (trim s) as [|c t] eqn:Et; [contradiction|].
  destruct (parse_StrNumericLiteral (c :: t)) as [l|] eqn:El; [|reflexivity].
  apply parse_StrNumericLiteral_plain in El.
  rewrite Forall_forall in El. destruct (El _ Hin) as [_ Hne]. congruence.
Qed.

Lemma count_occ_remove_class_global s :
  count_occ N.eq_dec (remove_class_global s) (cu ",") = count_occ N.eq_dec s (cu ",").
Proof.
  unfold remove_class_global.
  induction s as [|c t IH]; [reflexivity|]. cbn [filter].
  destruct (N.eq_dec c (cu ",")) as [->|Hne].
  - change (negb (in_class_s_or_nbsp (cu ","))) with true. cbv iota.
    rewrite !count_occ_cons_eq by reflexivity. f_equal. exact IH.
  - rewrite (count_occ_cons_neq _ t Hne).
    destruct (negb (in_class_s_or_nbsp c)); [|assumption].
    rewrite count_occ_cons_neq by assumption. assumption.
Qed.

Lemma count_occ_replace_first s :
  count_occ N.eq_dec (replace_first (cu ",") (js ".") s) (cu ",")
  = Nat.pred (count_occ N.eq_dec s (cu ",")).
Proof.
  induction s as [|c t IH]; [reflexivity|]. cbn [replace_first].
  destruct (N.eqb_spec c (cu ",")) as [->|Hne].
  - rewrite count_occ_cons_eq by reflexivity. reflexivity.
  - rewrite !count_occ_cons_neq by assumption. assumption.
Qed.

(** The non-breaking space is in the class [\s] already. *)
Lemma remove_class_global_filter s :
  remove_class_global s = filter (fun c => negb (is_white_space c)) s.
Proof.
  unfold remove_class_global, in_class_s_or_nbsp. apply filter_ext.
  intros c. f_equal. destruct (N.eqb_spec c 160%N) as [->|]; [reflexivity|].
  apply orb_false_r.
Qed.

End StringLemmas.

(** ** Validity of every number of the calculation *)

Section CalculatorNumbers.

Lemma StringToNumber_valid s : valid_binary prec emax (StringToNumber s) = true.
Proof.
  unfold StringToNumber.
  destruct (trim s); [reflexivity|].
  destruct (parse_StrNumericLiteral _) as [[neg|neg ip fp e|radix ds]|];
    try reflexivity; apply of_decimal_valid.
Qed.

Lemma parseNum_not_NaN v : isNaN (parseNum v) = false.
Proof.
  unfold parseNum.
  destruct (strict_equals v VUndefined || strict_equals v VNull
            || strict_equals v (VString (js ""))); [reflexivity|].
  cbv zeta. destruct (isNaN (StringToNumber _)) eqn:E; [reflexivity|assumption].
Qed.

Lemma parseNum_valid v : valid_binary prec emax (parseNum v) = true.
Proof.
  unfold parseNum.
  destruct (strict_equals v VUndefined || strict_equals v VNull
            || strict_equals v (VString (js ""))); [reflexivity|].
  cbv zeta. destruct (isNaN (StringToNumber _)); [reflexivity|].
  apply StringToNumber_valid.
Qed.

Lemma taxable_valid st : valid_binary prec emax (taxable (totals st)) = true.
Proof. apply add_valid; apply parseNum_valid. Qed.

Lemma total_valid st : valid_binary prec emax (total (totals st)) = true.
Proof.
  apply add_valid; apply add_valid; apply parseNum_valid.
Qed.

Lemma Math_max_zero_valid v :
  valid_binary prec emax v = true ->
  valid_binary prec emax (Math_max [pos_zero; v]) = true.
Proof.
  intros Hv. rewrite Math_max_zero.
  destruct (isNaN v); [reflexivity|].
  destruct (lt pos_zero v); [assumption|reflexivity].
Qed.

(** Every total is a valid binary64 value. *)
Lemma totalTax_valid st s :
  In s (scenarios st) -> valid_binary prec emax (totalTax s) = true.
Proof.
  assert (Hrate : forall m e, valid_binary prec emax (of_decimal false m e) = true)
    by (intros; apply of_decimal_valid).
  assert (Hvat : valid_binary prec emax
                   (if isVatPayer st then mul (taxable (totals st)) VAT5
                    else pos_zero) = true).
  { destruct (isVatPayer st); [|reflexivity].
    apply mul_valid; [apply taxable_valid|apply Hrate]. }
  intros Hs. cbn in Hs.
  destruct Hs as [<-|[<-|[<-|[<-|[]]]]]; cbn [totalTax usn6 usn15 ausn8 ausn20].
  - repeat apply add_valid; try assumption; [apply parseNum_valid|].
    apply mul_valid; [apply taxable_valid|apply Hrate].
  - repeat apply add_valid; try assumption; [apply parseNum_valid|].
    apply mul_valid; [|apply Hrate]. apply Math_max_zero_valid.
    apply sub_valid; [apply taxable_valid|apply parseNum_valid].
  - apply mul_valid; [apply total_valid|apply Hrate].
  - apply mul_valid; [|apply Hrate]. apply Math_max_zero_valid.
    apply sub_valid; [apply total_valid|apply parseNum_valid].
Qed.

(** [Math.max(0, a - b)] is +0 as soon as [b > a]. *)
Lemma floor_at_zero a b :
  valid_binary prec emax a = true -> valid_binary prec emax b = true ->
  gt b a = true -> Math_max [pos_zero; sub a b] = pos_zero.
Proof.
  intros Ha Hb H. destruct (sub_lt_sign a b Ha Hb H) as [Hn Hs].
  apply Math_max_zero_negative; assumption.
Qed.

Lemma rate_positive m e : sign_bit (of_decimal false m e) = false.
Proof.
  unfold of_decimal. destruct m; [reflexivity|].
  destruct e; unfold round_ratio;
    destruct (SFdiv_core_binary _ _ _ _ _ _) as [[q e'] l];
    (destruct (isNaN (binary_round_aux prec emax false q e' l)) eqn:E;
     [destruct (binary_round_aux _ _ _ _ _ _); try discriminate; reflexivity
     |apply binary_round_aux_sign; assumption]).
Qed.

End CalculatorNumbers.

(** ** The reduction that selects [best] *)

Section Selection.

Lemma fold_pick_last_minimum l : forall a,
  (forall s, In s (a :: l) -> isNaN (totalTax s) = false) ->
  last_minimum (a :: l) (fold_left pick l a).
Proof.
  induction l as [|x l IH] using rev_ind; intros a Hnan.
  - exists 0%nat. split; [reflexivity|].
    intros [|j] s Hj; cbn in Hj; [|destruct j; discriminate].
    injection Hj as <-. split; [|lia].
    apply num_le_refl, Hnan. left. reflexivity.
  - rewrite fold_left_app. cbn [fold_left].
    assert (Hnan' : forall s, In s (a :: l) -> isNaN (totalTax s) = false).
    { intros s Hs. apply Hnan. rewrite app_comm_cons. apply in_or_app. auto. }
    assert (Hx : isNaN (totalTax x) = false).
    { apply Hnan. rewrite app_comm_cons. apply in_or_app. right. left. reflexivity. }
    destruct (IH a Hnan') as [i [Hi Hmin]].
    set (b := fold_left pick l a) in *.
    assert (Hb : isNaN (totalTax b) = false).
    { apply Hnan'. eapply nth_error_In. eassumption. }
    assert (Hlen : (i < List.length (a :: l))%nat).
    { apply nth_error_Some. congruence. }
    unfold pick. destruct (lt (totalTax b) (totalTax x)) eqn:Hlt.
    + exists i. split.
      * rewrite app_comm_cons, nth_error_app1 by assumption. assumption.
      * intros j s Hj. rewrite app_comm_cons in Hj.
        destruct (Nat.lt_ge_cases j (List.length (a :: l))) as [Hjl|Hjl].
        -- rewrite nth_error_app1 in Hj by assumption. apply Hmin. assumption.
        -- rewrite nth_error_app2 in Hj by assumption.
           destruct (j - List.length (a :: l))%nat as [|k]; cbn in Hj;
             [|destruct k; discriminate].
           injection Hj as <-. split; [apply num_lt_le|]; auto.
    + exists (List.length (a :: l)). split.
      * rewrite app_comm_cons, nth_error_app2, Nat.sub_diag by lia. reflexivity.
      * intros j s Hj. rewrite app_comm_cons in Hj.
        destruct (Nat.lt_ge_cases j (List.length (a :: l))) as [Hjl|Hjl].
        -- rewrite nth_error_app1 in Hj by assumption. split; [|lia].
           apply num_le_trans with (totalTax b).
           ++ apply num_not_lt_le; assumption.
           ++ apply (Hmin j s Hj).
        -- rewrite nth_error_app2 in Hj by assumption.
           destruct (j - List.length (a :: l))%nat as [|k] eqn:Ek; cbn in Hj;
             [|destruct k; discriminate].
           injection Hj as <-. split; [apply num_le_refl; assumption|lia].
Qed.

End Selection.

(** ** Non-negative amounts *)

Section Amounts.

Lemma shr_fexp_nonneg m e l :
  0 <= m -> 0 <= shr_m (fst (shr_fexp prec emax m e l)).
Proof.
  intros Hm. unfold shr_fexp, shr.
  destruct (SpecFloat.fexp prec emax (Zdigits2 m + e) - e) as [|n|n]; cbn [fst];
    rewrite ?iter_shr_1_m, ?shr_record_of_loc_m;
    try (rewrite shr_record_of_loc_m); try assumption.
  apply Z.shiftr_nonneg. assumption.
Qed.

Lemma binary_round_aux_not_NaN s m e l :
  0 <= m -> isNaN (binary_round_aux prec emax s m e l) = false.
Proof.
  intros Hm. unfold binary_round_aux.
  pose proof (shr_fexp_nonneg m e l Hm) as H1.
  destruct (shr_fexp prec emax m e l) as [mrs1 e1]. cbn [fst] in H1.
  pose proof (round_nearest_even_bounds (shr_m mrs1) (loc_of_shr_record mrs1)) as Hb.
  pose proof (shr_fexp_nonneg
                (round_nearest_even (shr_m mrs1) (loc_of_shr_record mrs1))
                e1 loc_Exact ltac:(lia)) as H2.
  destruct (shr_fexp prec emax _ e1 loc_Exact) as [mrs2 e2]. cbn [fst] in H2.
  destruct (shr_m mrs2); [reflexivity| |lia].
  destruct (e2 <=? emax - prec); reflexivity.
Qed.

Lemma is_amount_not_below_zero x : is_amount x = true -> not_below_zero x.
Proof. destruct x as [[]|[]| |[] m e]; try discriminate; split; reflexivity. Qed.

Lemma add_not_below_zero x y :
  not_below_zero x -> not_below_zero y -> not_below_zero (add x y).
Proof.
  unfold not_below_zero. intros [Nx Sx] [Ny Sy].
  destruct x as [sx|sx| |sx mx ex], y as [sy|sy| |sy my ey];
    cbn [isNaN sign_bit] in *; subst; try discriminate;
    try (split; reflexivity).
  unfold add, SFadd, cond_Zopp. cbv zeta.
  change (Z.pos ?a + Z.pos ?b) with (Z.pos (a + b)). cbn [binary_normalize].
  split; [apply binary_round_valid | apply binary_round_sign].
Qed.

Lemma mul_rate_not_below_zero x y :
  not_below_zero x -> is_rate y = true -> not_below_zero (mul x y).
Proof.
  unfold not_below_zero. intros [Nx Sx] Hy.
  destruct y as [sy|sy| |[] m e]; try discriminate Hy.
  destruct x as [sx|sx| |sx mx ex]; cbn [isNaN sign_bit] in *; subst;
    try discriminate; try (split; reflexivity).
  unfold mul, SFmul. cbn [xorb].
  pose proof (binary_round_aux_not_NaN false (Z.pos (mx * m)) (ex + e) loc_Exact
                ltac:(lia)) as H.
  split; [assumption | apply binary_round_aux_sign; assumption].
Qed.

Lemma floor_not_below_zero t e :
  not_below_zero t -> is_amount e = true ->
  not_below_zero (Math_max [pos_zero; sub t e]).
Proof.
  intros [Nt St] He. split; [|apply Math_max_zero_sign].
  rewrite Math_max_zero.
  assert (Hd : isNaN (sub t e) = false).
  { destruct t as [st|st| |st mt et], e as [se|se| |se me ee];
      cbn [isNaN sign_bit is_amount] in *; subst; try destruct se;
      try discriminate; try reflexivity.
    unfold sub, SFsub. cbv zeta. apply (proj2 (binary_normalize_valid _ _ _)). }
  rewrite Hd. destruct (lt pos_zero (sub t e)); [assumption|reflexivity].
Qed.

(** With non-negative finite amounts in the seven fields the totals read,
    no total is NaN. *)
Lemma amounts_no_NaN st :
  is_amount (parseNum (VString (revTrainings st))) = true ->
  is_amount (parseNum (VString (revCamps st))) = true ->
  is_amount (parseNum (VString (revRoyalty st))) = true ->
  is_amount (parseNum (VString (revGoods st))) = true ->
  is_amount (parseNum (VString (usnProfitExpenses st))) = true ->
  is_amount (parseNum (VString (ausnProfitExpenses st))) = true ->
  is_amount (parseNum (VString (psnPatentCost st))) = true ->
  forall s, In s (scenarios st) -> isNaN (totalTax s) = false.
Proof.
  intros Ht Hc Hr Hg Hu Ha Hp.
  apply is_amount_not_below_zero in Ht, Hc, Hr, Hg, Hp.
  assert (Htax : not_below_zero (taxable (totals st)))
    by (apply add_not_below_zero; assumption).
  assert (Htot : not_below_zero (total (totals st))).
  { apply add_not_below_zero; [apply add_not_below_zero|]; assumption. }
  assert (Hvat : not_below_zero
                   (if isVatPayer st then mul (taxable (totals st)) VAT5
                    else pos_zero)).
  { destruct (isVatPayer st); [|split; reflexivity].
    apply mul_rate_not_below_zero; [assumption|reflexivity]. }
  intros s Hs. cbn in Hs.
  destruct Hs as [<-|[<-|[<-|[<-|[]]]]]; cbn [totalTax usn6 usn15 ausn8 ausn20].
  - apply add_not_below_zero; [apply add_not_below_zero|]; try assumption.
    apply mul_rate_not_below_zero; [assumption|reflexivity].
  - apply add_not_below_zero; [apply add_not_below_zero|]; try assumption.
    apply mul_rate_not_below_zero; [|reflexivity].
    apply floor_not_below_zero; assumption.
  - apply mul_rate_not_below_zero; [assumption|reflexivity].
  - apply mul_rate_not_below_zero; [|reflexivity].
    apply floor_not_below_zero; assumption.
Qed.

End Amounts.

(** ** The primitives on known values *)

Section Primitives.

Example is_white_space_class :
  map is_white_space [9; 13; 14; 32; 160; 5760; 8191; 8192; 8202; 8203;
                      8232; 8233; 8239; 8287; 12288; 65279; 44; 48]%N
  = [true; true; false; true; true; true; false; true; true; false;
     true; true; true; true; true; true; false; false].
Proof. reflexivity. Qed.

Example StringToNumber_tenth :
  StringToNumber (js "0.1") = S754_finite false 7205759403792794 (-56).
Proof. vm_compute. reflexivity. Qed.

Example StringToNumber_forms :
  StringToNumber (js " 12 ") = whole 12 /\
  StringToNumber (js "1 2") = NaN /\
  StringToNumber (js "+.5e1") = whole 5 /\
  StringToNumber (js "5.") = whole 5 /\
  StringToNumber (js ".") = NaN /\
  StringToNumber (js "0x1F") = whole 31 /\
  StringToNumber (js "-0x1F") = NaN /\
  StringToNumber (js "1_000") = NaN /\
  StringToNumber (js "-0") = neg_zero /\
  StringToNumber (js "-Infinity") = S754_infinity true /\
  StringToNumber (js "1e400") = Infinity /\
  StringToNumber (js "1e-400") = pos_zero /\
  StringToNumber (js "5e-324") = S754_finite false 1 (-1074) /\
  StringToNumber (js "9007199254740993") = whole 9007199254740992.
Proof. vm_compute. repeat split; reflexivity. Qed.

Example NumberToString_forms :
  NumberToString (of_decimal false 10005 (-1)) = js "1000.5" /\
  NumberToString (of_decimal false 3 (-1)) = js "0.3" /\
  NumberToString (add (of_decimal false 1 (-1)) (of_decimal false 2 (-1)))
  = js "0.30000000000000004" /\
  NumberToString (of_decimal false 1 21) = js "1e+21" /\
  NumberToString (of_decimal false 1 20) = js "100000000000000000000" /\
  NumberToString (of_decimal false 1 (-6)) = js "0.000001" /\
  NumberToString (of_decimal false 15 (-8)) = js "1.5e-7" /\
  NumberToString (of_decimal true 42 0) = js "-42" /\
  NumberToString neg_zero = js "0" /\
  NumberToString (S754_finite false 1 (-1074)) = js "5e-324".
Proof. vm_compute. repeat split; reflexivity. Qed.

Example Math_round_forms :
  Math_round (of_decimal false 25 (-1)) = whole 3 /\
  Math_round (of_decimal true 25 (-1)) = of_decimal true 2 0 /\
  Math_round (of_decimal true 5 (-1)) = neg_zero /\
  Math_round (of_decimal false 4 (-1)) = pos_zero /\
  Math_round (of_decimal false 49999999999999994 (-17)) = pos_zero /\
  Math_round (whole 970000) = whole 970000.
Proof. vm_compute. repeat split; reflexivity. Qed.

Example Math_max_forms :
  Math_max [pos_zero; of_decimal true 3 0] = pos_zero /\
  Math_max [pos_zero; neg_zero] = pos_zero /\
  Math_max [neg_zero; pos_zero] = pos_zero /\
  Math_max [pos_zero; NaN] = NaN /\
  Math_max [pos_zero; whole 3] = whole 3 /\
  Math_max [] = S754_infinity true.
Proof. vm_compute. repeat split; reflexivity. Qed.

Example parseNum_of_numbers :
  parseNum (VNumber (of_decimal true 10025 (-2))) = of_decimal true 10025 (-2) /\
  parseNum (VNumber NaN) = pos_zero /\
  parseNum (VNumber Infinity) = Infinity /\
  parseNum (VNumber neg_zero) = pos_zero /\
  parseNum (VString (cu "1" :: 160%N :: js "000")) = whole 1000.
Proof. vm_compute. repeat split; reflexivity. Qed.

(** The initial form: the four totals, the selection and the chart. *)
Example initialState_scenarios :
  map totalTax (scenarios initialState)
  = [whole 970000; whole 1420000; whole 1200000; whole 2760000] /\
  best initialState = Some (usn6 initialState) /\
  map value (chartData initialState)
  = [whole 970000; whole 1420000; whole 1200000; whole 2760000].
Proof. vm_compute. repeat split; reflexivity. Qed.

End Primitives.

(** ** The claims of the specification *)

Section Claims.

(** C1, as the specification states it, fails on the empty form: the four
    totals are all +0, the first scenario of least total is usn6, and the
    reduction returns ausn20. *)
Lemma best_first_minimum_counterexample :
  ~ (exists b, best emptyState = Some b /\
               first_minimum (scenarios emptyState) b).
Proof.
  intros [b [Hb [i [Hi Hmin]]]].
  assert (Eb : b = ausn20 emptyState).
  { vm_compute in Hb. injection Hb as <-. reflexivity. }
  subst b.
  assert (Ei : i = 3%nat).
  { destruct i as [|[|[|[|i]]]]; try reflexivity.
    - vm_compute in Hi. discriminate.
    - vm_compute in Hi. discriminate.
    - vm_compute in Hi. discriminate.
    - cbn in Hi. destruct i; discriminate. }
  subst i.
  destruct (Hmin 0%nat (usn6 emptyState) eq_refl) as [_ Hlt].
  specialize (Hlt ltac:(lia)). vm_compute in Hlt. discriminate.
Qed.

(** With a NaN total the reduction does not return a minimum: on the form
    with infinite trainings and AUSN expenses the last total is NaN and that
    scenario is returned, although the total of usn6 is +0. *)
Lemma best_NaN_total :
  best infiniteState = Some (ausn20 infiniteState) /\
  isNaN (totalTax (ausn20 infiniteState)) = true /\
  totalTax (usn6 infiniteState) = pos_zero.
Proof. repeat split; vm_compute; reflexivity. Qed.

(** On non-negative finite amounts the reduction returns the last scenario
    of least total. *)
Lemma best_of_amounts st :
  is_amount (parseNum (VString (revTrainings st))) = true ->
  is_amount (parseNum (VString (revCamps st))) = true ->
  is_amount (parseNum (VString (revRoyalty st))) = true ->
  is_amount (parseNum (VString (revGoods st))) = true ->
  is_amount (parseNum (VString (usnProfitExpenses st))) = true ->
  is_amount (parseNum (VString (ausnProfitExpenses st))) = true ->
  is_amount (parseNum (VString (psnPatentCost st))) = true ->
  exists b, best st = Some b /\ last_minimum (scenarios st) b.
Proof.
  intros Ht Hc Hr Hg Hu Ha Hp. eexists. split; [reflexivity|].
  apply fold_pick_last_minimum. apply amounts_no_NaN; assumption.
Qed.

(** C1 (amended): whenever none of the four totals is NaN, [best] is the
    scenario of least exact [totalTax] among [usn6; usn15; ausn8; ausn20],
    found by the pairwise reduction; on exact ties the last scenario of
    least total wins.  The chart values are the totals rounded by
    [Math.round]; the reduction compares the unrounded totals, which on the
    form with a royalty of 10 selects usn6 where the rounded values would
    select ausn8. *)
Theorem best_last_minimum (st : State) :
  (exists b, best st = Some b /\ In b (scenarios st)) /\
  best st
  = Some (pick (pick (pick (usn6 st) (usn15 st)) (ausn8 st)) (ausn20 st)) /\
  ((forall s, In s (scenarios st) -> isNaN (totalTax s) = false) ->
   exists b, best st = Some b /\ last_minimum (scenarios st) b) /\
  map value (chartData st)
  = map (fun s => Math_round (totalTax s)) (scenarios st) /\
  map name (chartData st) = map label (scenarios st) /\
  best smallState = Some (usn6 smallState) /\
  reduce pick_rounded (scenarios smallState) = Some (ausn8 smallState).
Proof.
  split; [|split; [|split; [|split; [|split; [|split]]]]].
  - eexists. split; [reflexivity|].
    cbn [scenarios fold_left]. unfold pick.
    repeat match goal with
           | |- context [if ?c then _ else _] => destruct c
           end; cbn; tauto.
  - reflexivity.
  - intros Hnan. eexists. split; [reflexivity|].
    apply fold_pick_last_minimum. exact Hnan.
  - unfold chartData. rewrite map_map. reflexivity.
  - unfold chartData. rewrite map_map. reflexivity.
  - vm_compute. reflexivity.
  - vm_compute. reflexivity.
Qed.

Lemma best_last_minimum_witness :
  exists b, best initialState = Some b /\
            last_minimum (scenarios initialState) b.
Proof.
  refine (proj1 (proj2 (proj2 (best_last_minimum initialState))) _).
  intros s Hs. cbn in Hs.
  repeat (destruct Hs as [<-|Hs]; [vm_compute; reflexivity|]).
  contradiction.
Defined.

(** C2: the total of scenario usn6 is the parsed patent cost plus 6% of the
    taxable revenue plus, for a VAT payer, 5% of the taxable revenue; with a
    taxable revenue of 7000000, a patent cost of 200000 and VAT due it is
    200000 + 420000 + 350000 = 970000. *)
Theorem usn6_totalTax (st : State) :
  totalTax (usn6 st)
  = usn6_total (parseNum (VString (psnPatentCost st))) (taxable (totals st))
               (isVatPayer st) /\
  (taxable (totals st) = whole 7000000 ->
   parseNum (VString (psnPatentCost st)) = whole 200000 ->
   isVatPayer st = true ->
   components (usn6 st)
   = [("Стоимость патента", whole 200000); ("УСН 6%", whole 420000);
      ("НДС 5%", whole 350000)]%string /\
   totalTax (usn6 st) = whole 970000).
Proof.
  split; [reflexivity|].
  intros Ht Hp Hv. unfold usn6. cbn [components totalTax].
  rewrite Ht, Hp, Hv. vm_compute. split; reflexivity.
Qed.

Lemma usn6_totalTax_witness :
  components (usn6 initialState)
  = [("Стоимость патента", whole 200000); ("УСН 6%", whole 420000);
     ("НДС 5%", whole 350000)]%string /\
  totalTax (usn6 initialState) = whole 970000.
Proof.
  apply (proj2 (usn6_totalTax initialState)); vm_compute; reflexivity.
Defined.

(** C3: the total of scenario usn15 is the parsed patent cost plus 15% of
    the taxable revenue less the parsed expenses, floored at zero, plus, for
    a VAT payer, 5% of the taxable revenue; with a taxable revenue of
    7000000, expenses of 1200000, a patent cost of 200000 and VAT due it is
    200000 + 870000 + 350000 = 1420000. *)
Theorem usn15_totalTax (st : State) :
  totalTax (usn15 st)
  = usn15_total (parseNum (VString (psnPatentCost st))) (taxable (totals st))
                (parseNum (VString (usnProfitExpenses st))) (isVatPayer st) /\
  (taxable (totals st) = whole 7000000 ->
   parseNum (VString (usnProfitExpenses st)) = whole 1200000 ->
   parseNum (VString (psnPatentCost st)) = whole 200000 ->
   isVatPayer st = true ->
   components (usn15 st)
   = [("Стоимость патента", whole 200000); ("УСН 15%", whole 870000);
      ("НДС 5%", whole 350000)]%string /\
   totalTax (usn15 st) = whole 1420000).
Proof.
  split; [reflexivity|].
  intros Ht He Hp Hv. unfold usn15, usn15_base. cbn [components totalTax].
  rewrite Ht, He, Hp, Hv. vm_compute. split; reflexivity.
Qed.

Lemma usn15_totalTax_witness :
  components (usn15 initialState)
  = [("Стоимость патента", whole 200000); ("УСН 15%", whole 870000);
     ("НДС 5%", whole 350000)]%string /\
  totalTax (usn15 initialState) = whole 1420000.
Proof.
  apply (proj2 (usn15_totalTax initialState)); vm_compute; reflexivity.
Defined.

(** C4: the total of scenario ausn8 is 8% of the total revenue and the total
    of scenario ausn20 is 20% of the total revenue less the parsed expenses,
    floored at zero; each has that single component, and neither changes
    with the inputs of the VAT status and of the patent cost. *)
Theorem ausn_totalTax (st : State) :
  totalTax (ausn8 st) = ausn8_total (total (totals st)) /\
  totalTax (ausn20 st)
  = ausn20_total (total (totals st))
                 (parseNum (VString (ausnProfitExpenses st))) /\
  components (ausn8 st) = [("АУСН 8%"%string, totalTax (ausn8 st))] /\
  components (ausn20 st) = [("АУСН 20%"%string, totalTax (ausn20 st))] /\
  (forall prev threshold patent usnExpenses,
     let st' := {|
       revTrainings := revTrainings st; revCamps := revCamps st;
       revRoyalty := revRoyalty st; revGoods := revGoods st;
       usnProfitExpenses := usnExpenses;
       ausnProfitExpenses := ausnProfitExpenses st;
       prevYearRevenue := prev; vatThreshold := threshold;
       psnPatentCost := patent |} in
     ausn8 st' = ausn8 st /\ ausn20 st' = ausn20 st).
Proof.
  repeat split; reflexivity.
Qed.

(** C5: sport is the sum of the parsed trainings and camps, taxable the sum
    of the parsed royalty and goods, total the sum of sport and taxable;
    8000000, 0, 6000000 and 1000000 give 8000000, 7000000 and 15000000. *)
Theorem totals_derived (st : State) :
  sport (totals st)
  = add (parseNum (VString (revTrainings st))) (parseNum (VString (revCamps st))) /\
  taxable (totals st)
  = add (parseNum (VString (revRoyalty st))) (parseNum (VString (revGoods st))) /\
  total (totals st) = add (sport (totals st)) (taxable (totals st)) /\
  (parseNum (VString (revTrainings st)) = whole 8000000 ->
   parseNum (VString (revCamps st)) = whole 0 ->
   parseNum (VString (revRoyalty st)) = whole 6000000 ->
   parseNum (VString (revGoods st)) = whole 1000000 ->
   sport (totals st) = whole 8000000 /\
   taxable (totals st) = whole 7000000 /\
   total (totals st) = whole 15000000).
Proof.
  split; [reflexivity|]. split; [reflexivity|]. split; [reflexivity|].
  intros Ht Hc Hr Hg. unfold totals. cbn [sport taxable total].
  rewrite Ht, Hc, Hr, Hg. vm_compute. repeat split; reflexivity.
Qed.

Lemma totals_derived_witness :
  sport (totals initialState) = whole 8000000 /\
  taxable (totals initialState) = whole 7000000 /\
  total (totals initialState) = whole 15000000.
Proof.
  apply (proj2 (proj2 (proj2 (totals_derived initialState))));
    vm_compute; reflexivity.
Defined.

(** C6: [isVatPayer] holds exactly when the parsed revenue of the previous
    year is strictly greater than the parsed threshold; when the two are
    equal it does not hold.  15000000 against 10000000 is a VAT payer,
    10000000 against 10000000 is not. *)
Theorem isVatPayer_strict (st : State) :
  let revenue := parseNum (VString (prevYearRevenue st)) in
  let threshold := parseNum (VString (vatThreshold st)) in
  isVatPayer st = gt revenue threshold /\
  (isVatPayer st = true <-> SFcompare revenue threshold = Some Gt) /\
  (num_eq revenue threshold = true -> isVatPayer st = false) /\
  (revenue = whole 15000000 -> threshold = whole 10000000 -> isVatPayer st = true) /\
  (revenue = whole 10000000 -> threshold = whole 10000000 -> isVatPayer st = false).
Proof.
  cbv zeta. unfold isVatPayer, gt, num_eq, SFltb, SFeqb.
  set (revenue := parseNum (VString (prevYearRevenue st))).
  set (threshold := parseNum (VString (vatThreshold st))).
  rewrite (SFcompare_antisym revenue threshold).
  split; [reflexivity|]. split; [|split; [|split]].
  - destruct (SFcompare revenue threshold) as [[]|]; cbn; split;
      congruence.
  - destruct (SFcompare revenue threshold) as [[]|]; cbn; congruence.
  - intros -> ->. vm_compute. reflexivity.
  - intros -> ->. vm_compute. reflexivity.
Qed.

Lemma isVatPayer_strict_witness :
  isVatPayer initialState = true /\ isVatPayer thresholdState = false.
Proof.
  split.
  - apply (proj1 (proj2 (proj2 (proj2 (isVatPayer_strict initialState)))));
      vm_compute; reflexivity.
  - apply (proj2 (proj2 (proj2 (proj2 (isVatPayer_strict thresholdState)))));
      vm_compute; reflexivity.
Defined.

(** C7: [parseNum] returns a number that is not NaN on every input.  It
    returns +0 on [undefined], [null] and the empty string.  On any other
    input it removes every white-space code unit (the non-breaking space is
    one) from the string of the input, replaces the first comma by a point,
    converts the result to a number and returns it, or +0 when it is NaN.
    1 000,50 gives 1000.5, 1,5 gives 1.5 and abc gives 0. *)
Theorem parseNum_total (v : js_value) :
  isNaN (parseNum v) = false /\
  parseNum v =
    match v with
    | VUndefined | VNull | VString [] => pos_zero
    | _ =>
        let cleanedString :=
          replace_first (cu ",") (js ".")
            (filter (fun c => negb (is_white_space c)) (ToString v)) in
        let number := StringToNumber cleanedString in
        if isNaN number then pos_zero else number
    end /\
  is_white_space 160%N = true /\
  parseNum (VString (js "1 000,50")) = of_decimal false 10005 (-1) /\
  parseNum (VString (js "1,5")) = of_decimal false 15 (-1) /\
  parseNum (VString (js "abc")) = pos_zero.
Proof.
  split; [apply parseNum_not_NaN|]. split.
  - destruct v as [| |[|c t]|x]; try reflexivity;
      unfold parseNum; cbn [strict_equals orb];
      rewrite remove_class_global_filter; reflexivity.
  - repeat split; vm_compute; reflexivity.
Qed.

(** C8: the profit bases of usn15 and ausn20 are [Math.max] of zero and the
    revenue less the parsed expenses, and the rate multiplies that base.
    When the parsed expenses exceed the revenue the base is exactly +0.
    Neither base nor the tax computed from it is ever below zero. *)
Theorem profit_base_floor (st : State) :
  let usnExpenses := parseNum (VString (usnProfitExpenses st)) in
  let ausnExpenses := parseNum (VString (ausnProfitExpenses st)) in
  let usnTax := mul (usn15_base st) (of_decimal false 15 (-2)) in
  usn15_base st = Math_max [pos_zero; sub (taxable (totals st)) usnExpenses] /\
  ausn20_base st = Math_max [pos_zero; sub (total (totals st)) ausnExpenses] /\
  (gt usnExpenses (taxable (totals st)) = true -> usn15_base st = pos_zero) /\
  (gt ausnExpenses (total (totals st)) = true -> ausn20_base st = pos_zero) /\
  lt (usn15_base st) pos_zero = false /\
  lt (ausn20_base st) pos_zero = false /\
  nth_error (components (usn15 st)) 1 = Some ("УСН 15%"%string, usnTax) /\
  lt usnTax pos_zero = false /\
  totalTax (ausn20 st) = mul (ausn20_base st) (of_decimal false 20 (-2)) /\
  lt (totalTax (ausn20 st)) pos_zero = false.
Proof.
  cbv zeta. split; [reflexivity|]. split; [reflexivity|].
  split; [|split].
  - apply floor_at_zero; [apply taxable_valid | apply parseNum_valid].
  - apply floor_at_zero; [apply total_valid | apply parseNum_valid].
  - pose proof (Math_max_zero_sign
      (sub (taxable (totals st)) (parseNum (VString (usnProfitExpenses st))))) as H15.
    pose proof (Math_max_zero_sign
      (sub (total (totals st)) (parseNum (VString (ausnProfitExpenses st))))) as H20.
    fold (usn15_base st) in H15. fold (ausn20_base st) in H20.
    repeat split; try reflexivity.
    + apply sign_bit_not_lt_zero. assumption.
    + apply sign_bit_not_lt_zero. assumption.
    + apply sign_bit_not_lt_zero, mul_sign; [assumption|apply rate_positive].
    + apply sign_bit_not_lt_zero. cbn [ausn20 totalTax].
      apply mul_sign; [assumption|apply rate_positive].
Qed.

Lemma profit_base_floor_witness :
  usn15_base lossState = pos_zero /\ ausn20_base lossState = pos_zero.
Proof.
  split.
  - exact (proj1 (proj2 (proj2 (profit_base_floor lossState))) eq_refl).
  - exact (proj1 (proj2 (proj2 (proj2 (profit_base_floor lossState)))) eq_refl).
Defined.

(** C9: [parseNum] does not clamp negative values.  A string that [Number]
    converts to a number below zero is converted by [parseNum] to that same
    number.  The negative amount reaches the totals: a royalty of -100 makes
    the taxable revenue -100 and the total of usn6 -6. *)
Theorem parseNum_keeps_negative :
  (forall s x, StringToNumber s = x -> lt x pos_zero = true ->
     parseNum (VString s) = x) /\
  parseNum (VString (js "-100")) = of_decimal true 100 0 /\
  taxable (totals negativeRoyaltyState) = of_decimal true 100 0 /\
  totalTax (usn6 negativeRoyaltyState) = of_decimal true 6 0 /\
  lt (totalTax (usn6 negativeRoyaltyState)) pos_zero = true.
Proof.
  split.
  - intros s x <- Hlt. apply parseNum_numeric_string.
    destruct (StringToNumber s); try reflexivity. discriminate.
  - repeat split; vm_compute; reflexivity.
Qed.

Lemma parseNum_keeps_negative_witness :
  parseNum (VString (js "-2.5")) = of_decimal true 25 (-1).
Proof.
  apply (proj1 parseNum_keeps_negative); vm_compute; reflexivity.
Defined.

(** C10: [parseNum] removes every white-space code unit but replaces the
    first comma only.  A string with two commas or more is converted to NaN
    and [parseNum] returns +0, as on 1,000,000; a string with spaces and one
    comma is parsed, as 1 000,50 to 1000.5. *)
Theorem parseNum_first_comma_only :
  (forall s, (2 <= count_occ N.eq_dec s (cu ","))%nat ->
     StringToNumber (replace_first (cu ",") (js ".") (remove_class_global s)) = NaN /\
     parseNum (VString s) = pos_zero) /\
  (forall pre post, ~ In (cu ",") pre ->
     replace_first (cu ",") (js ".") (pre ++ cu "," :: post) = pre ++ js "." ++ post) /\
  (forall s c, In c (remove_class_global s) -> is_white_space c = false) /\
  parseNum (VString (js "1,000,000")) = pos_zero /\
  parseNum (VString (js "1 000,50")) = of_decimal false 10005 (-1).
Proof.
  split; [|split; [|split]].
  - intros s Hs.
    assert (E : StringToNumber
                  (replace_first (cu ",") (js ".") (remove_class_global s)) = NaN).
    { apply StringToNumber_comma. apply (count_occ_In N.eq_dec).
      rewrite count_occ_replace_first, count_occ_remove_class_global. lia. }
    split; [assumption|].
    rewrite parseNum_string. cbv zeta. rewrite E. reflexivity.
  - intros pre post Hpre. induction pre as [|c t IH]; [reflexivity|].
    cbn [app replace_first].
    destruct (N.eqb_spec c (cu ",")) as [->|_].
    + exfalso. apply Hpre. left. reflexivity.
    + rewrite IH; [reflexivity|]. intros H. apply Hpre. right. assumption.
  - intros s c Hc. unfold remove_class_global in Hc.
    apply filter_In in Hc. destruct Hc as [_ Hc].
    unfold in_class_s_or_nbsp in Hc.
    destruct (is_white_space c); [discriminate|reflexivity].
  - split; vm_compute; reflexivity.
Qed.

Lemma parseNum_first_comma_only_witness :
  StringToNumber
    (replace_first (cu ",") (js ".") (remove_class_global (js "1,000,000"))) = NaN /\
  parseNum (VString (js "1,000,000")) = pos_zero.
Proof.
  apply (proj1 parseNum_first_comma_only). vm_compute. lia.
Defined.

End Claims.

(** ** Further properties of [parseNum] *)

Section ParseNumFurther.

Lemma remove_class_global_app a b :
  remove_class_global (a ++ b) = remove_class_global a ++ remove_class_global b.
Proof. apply filter_app. Qed.

Lemma remove_class_global_absent c s :
  ~ In c s -> ~ In c (remove_class_global s).
Proof.
  intros H Hin. apply H. unfold remove_class_global in Hin.
  apply filter_In in Hin. tauto.
Qed.

Lemma replace_first_absent c r s : ~ In c s -> replace_first c r s = s.
Proof.
  induction s as [|d t IH]; [reflexivity|]. intros H. cbn [replace_first].
  destruct (N.eqb_spec d c) as [->|_].
  - exfalso. apply H. left. reflexivity.
  - rewrite IH; [reflexivity|]. intros Hin. apply H. right. assumption.
Qed.

Lemma replace_first_here c r pre post :
  ~ In c pre -> replace_first c r (pre ++ c :: post) = pre ++ r ++ post.
Proof.
  induction pre as [|d t IH]; intros H; cbn [app replace_first].
  - rewrite N.eqb_refl. reflexivity.
  - destruct (N.eqb_spec d c) as [->|_].
    + exfalso. apply H. left. reflexivity.
    + rewrite IH; [reflexivity|]. intros Hin. apply H. right. assumption.
Qed.

(** X1: white space is ignored wherever it stands: a run of white-space
    code units inserted anywhere in a string, between digits too, does not
    change what [parseNum] returns; a string of white space alone gives +0. *)
Theorem parseNum_ignores_white_space (a ws b : jsstring) :
  Forall (fun c => is_white_space c = true) ws ->
  parseNum (VString (a ++ ws ++ b)) = parseNum (VString (a ++ b)) /\
  parseNum (VString ws) = pos_zero.
Proof.
  intros Hws. rewrite !parseNum_string. cbv zeta.
  rewrite !remove_class_global_app, (remove_class_global_white ws Hws).
  split; reflexivity.
Qed.

Lemma parseNum_ignores_white_space_witness :
  parseNum (VString (js "12" ++ [32; 160; 9]%N ++ js "345,5"))
  = parseNum (VString (js "12" ++ js "345,5")) /\
  parseNum (VString [32; 160; 9]%N) = pos_zero.
Proof.
  apply (parseNum_ignores_white_space (js "12") [32; 160; 9]%N (js "345,5")).
  repeat constructor.
Defined.

(** X2: a decimal comma reads as a decimal point: a string with one comma
    is parsed as the same string with a point in its place. *)
Theorem parseNum_decimal_comma (pre post : jsstring) :
  ~ In (cu ",") pre -> ~ In (cu ",") post ->
  parseNum (VString (pre ++ cu "," :: post))
  = parseNum (VString (pre ++ cu "." :: post)).
Proof.
  intros Hpre Hpost. rewrite !parseNum_string. cbv zeta.
  rewrite !remove_class_global_app.
  change (remove_class_global (cu "," :: post))
    with (cu "," :: remove_class_global post).
  change (remove_class_global (cu "." :: post))
    with (cu "." :: remove_class_global post).
  rewrite replace_first_here by (apply remove_class_global_absent; assumption).
  rewrite (replace_first_absent (cu ",") (js ".")
             (remove_class_global pre ++ cu "." :: remove_class_global post)).
  - reflexivity.
  - intros Hin. apply in_app_or in Hin. destruct Hin as [Hin|[Hin|Hin]].
    + revert Hin. apply remove_class_global_absent. assumption.
    + discriminate Hin.
    + revert Hin. apply remove_class_global_absent. assumption.
Qed.

Lemma parseNum_decimal_comma_witness :
  parseNum (VString (js "1 000" ++ cu "," :: js "50"))
  = parseNum (VString (js "1 000" ++ cu "." :: js "50")).
Proof.
  apply parseNum_decimal_comma; cbn; intros H;
    repeat (destruct H as [H|H]; [discriminate H|]); exact H.
Defined.

(** X3: [parseNum] extends [Number]: on every string that [Number] converts
    to a number other than NaN, [parseNum] returns that number. *)
Theorem parseNum_extends_Number (s : jsstring) :
  isNaN (StringToNumber s) = false ->
  parseNum (VString s) = StringToNumber s.
Proof. exact (parseNum_numeric_string s). Qed.

Lemma parseNum_extends_Number_witness :
  parseNum (VString (js " 0x1F ")) = StringToNumber (js " 0x1F ").
Proof.
  apply parseNum_extends_Number. vm_compute. reflexivity.
Defined.

End ParseNumFurther.

(** ** The alphabet of numeric literals *)

Section Alphabet.

Local Abbreviation grammar := (fun c => grammar_char c = true).

Ltac grammar_eqb :=
  match goal with
  | H : (?c =? cu ?a)%N = true |- grammar_char ?c = true =>
      apply N.eqb_eq in H; subst c; reflexivity
  end.

Lemma digit_value_grammar radix c d :
  digit_value radix c = Some d -> grammar_char c = true.
Proof.
  unfold digit_value, grammar_char. intros H.
  destruct ((48 <=? c) && (c <=? 57))%N; [reflexivity|].
  destruct ((97 <=? c) && (c <=? 102))%N; [reflexivity|].
  destruct ((65 <=? c) && (c <=? 70))%N; [reflexivity|discriminate].
Qed.

Lemma scan_digits_grammar radix s :
  Forall grammar (snd (scan_digits radix s)) -> Forall grammar s.
Proof.
  induction s as [|c t IH]; cbn [scan_digits]; [auto|].
  destruct (digit_value radix c) eqn:E; [|auto].
  destruct (scan_digits radix t) as [ds r]. cbn [snd] in *.
  intros H. constructor; [eapply digit_value_grammar; eassumption | auto].
Qed.

Lemma scan_digits_all_grammar radix s ds :
  scan_digits radix s = (ds, []) -> Forall grammar s.
Proof.
  intros H. apply (scan_digits_grammar radix). rewrite H. constructor.
Qed.

Lemma parse_ExponentPart_grammar s e :
  parse_ExponentPart s = Some e -> Forall grammar s.
Proof.
  destruct s as [|c t]; cbn [parse_ExponentPart]; [constructor|].
  destruct ((c =? cu "e") || (c =? cu "E"))%N eqn:Ec; [|discriminate].
  assert (Hc : grammar_char c = true).
  { apply orb_prop in Ec. destruct Ec; grammar_eqb. }
  assert (Ht : forall u, match scan_digits 10 u with
                         | (_ :: _, []) => True | _ => False end ->
                         Forall grammar u).
  { intros u Hu.
    destruct (scan_digits 10 u) as [[|d ds] [|? ?]] eqn:E; try contradiction.
    eapply scan_digits_all_grammar; eassumption. }
  destruct t as [|d u].
  - cbn. discriminate.
  - destruct (d =? cu "+")%N eqn:Ep; [|destruct (d =? cu "-")%N eqn:Em].
    + intros H. constructor; [assumption|]. constructor; [grammar_eqb|].
      apply Ht. destruct (scan_digits 10 u) as [[|] [|]]; try discriminate; exact I.
    + intros H. constructor; [assumption|]. constructor; [grammar_eqb|].
      apply Ht. destruct (scan_digits 10 u) as [[|] [|]]; try discriminate; exact I.
    + intros H. constructor; [assumption|].
      apply Ht.
      destruct (scan_digits 10 (d :: u)) as [[|] [|]]; try discriminate; exact I.
Qed.

Lemma parse_StrUnsignedDecimalLiteral_grammar neg s l :
  parse_StrUnsignedDecimalLiteral neg s = Some l -> Forall grammar s.
Proof.
  unfold parse_StrUnsignedDecimalLiteral.
  destruct (jsstring_eqb s (js "Infinity")) eqn:Ei.
  - intros _. apply jsstring_eqb_eq in Ei. subst. repeat constructor.
  - pose proof (scan_digits_grammar 10 s) as Hs.
    destruct (scan_digits 10 s) as [ip r1]. cbn [snd] in Hs.
    assert (Hr : forall fp r2,
      match r1 with
      | c :: t => if (c =? cu ".")%N then scan_digits 10 t else ([], r1)
      | [] => ([], r1)
      end = (fp, r2) -> Forall grammar r2 -> Forall grammar r1).
    { intros fp r2 H Hr2. destruct r1 as [|c t]; [constructor|].
      destruct (c =? cu ".")%N eqn:Ec.
      - constructor; [grammar_eqb|].
        apply (scan_digits_grammar 10). rewrite H. assumption.
      - injection H as _ <-. assumption. }
    destruct (match r1 with [] => _ | _ => _ end) as [fp r2].
    specialize (Hr fp r2 eq_refl).
    intros H. apply Hs, Hr.
    destruct ip, fp; try discriminate;
      destruct (parse_ExponentPart r2) eqn:E; try discriminate;
      eapply parse_ExponentPart_grammar; eassumption.
Qed.

Lemma parse_StrDecimalLiteral_grammar s l :
  parse_StrDecimalLiteral s = Some l -> Forall grammar s.
Proof.
  destruct s as [|c t]; cbn [parse_StrDecimalLiteral]; [discriminate|].
  destruct (c =? cu "+")%N eqn:Ep; [|destruct (c =? cu "-")%N eqn:Em].
  - intros H. constructor; [grammar_eqb|].
    eapply parse_StrUnsignedDecimalLiteral_grammar; eassumption.
  - intros H. constructor; [grammar_eqb|].
    eapply parse_StrUnsignedDecimalLiteral_grammar; eassumption.
  - apply parse_StrUnsignedDecimalLiteral_grammar.
Qed.

Lemma non_decimal_radix_grammar c radix :
  non_decimal_radix c = Some radix -> grammar_char c = true.
Proof.
  unfold non_decimal_radix.
  destruct ((c =? cu "x") || (c =? cu "X"))%N eqn:E1;
    [|destruct ((c =? cu "o") || (c =? cu "O"))%N eqn:E2;
      [|destruct ((c =? cu "b") || (c =? cu "B"))%N eqn:E3; [|discriminate]]].
  all: intros _; apply orb_prop in E1 || apply orb_prop in E2 || apply orb_prop in E3.
  all: match goal with H : _ \/ _ |- _ => destruct H end; grammar_eqb.
Qed.

(** Every code unit of a string of the grammar is in its alphabet. *)
Lemma parse_StrNumericLiteral_grammar s l :
  parse_StrNumericLiteral s = Some l -> Forall grammar s.
Proof.
  unfold parse_StrNumericLiteral.
  destruct s as [|z [|c t]]; try apply parse_StrDecimalLiteral_grammar.
  destruct (z =? cu "0")%N eqn:Ez; [|apply parse_StrDecimalLiteral_grammar].
  destruct (non_decimal_radix c) as [radix|] eqn:Er;
    [|apply parse_StrDecimalLiteral_grammar].
  unfold parse_NonDecimal.
  destruct (scan_digits radix t) as [[|d ds] [|? ?]] eqn:E; try discriminate.
  intros _. constructor; [grammar_eqb|].
  constructor; [eapply non_decimal_radix_grammar; eassumption|].
  eapply scan_digits_all_grammar; eassumption.
Qed.

Lemma In_replace_first_other c x r s :
  In c s -> c <> x -> In c (replace_first x r s).
Proof.
  intros Hin Hne. induction s as [|d t IH]; [contradiction|].
  cbn [replace_first]. destruct (N.eqb_spec d x) as [->|_].
  - destruct Hin as [->|Hin]; [congruence|]. apply in_or_app. right. assumption.
  - destruct Hin as [->|Hin]; [left; reflexivity|right; auto].
Qed.

(** X4: one code unit that is neither white space, nor a comma, nor of the
    alphabet of numeric literals (a currency sign, a letter of a unit, a
    percent sign) makes [parseNum] return +0, whatever else the string
    holds. *)
Theorem parseNum_foreign_character (s : jsstring) (c : code_unit) :
  In c s -> is_white_space c = false -> c <> cu "," ->
  grammar_char c = false ->
  parseNum (VString s) = pos_zero.
Proof.
  intros Hin Hws Hcomma Hg. rewrite parseNum_string. cbv zeta.
  set (cleaned := replace_first (cu ",") (js ".") (remove_class_global s)).
  assert (Hc : In c cleaned).
  { apply In_replace_first_other; [|assumption].
    unfold remove_class_global. apply filter_In. split; [assumption|].
    unfold in_class_s_or_nbsp. rewrite Hws.
    destruct (N.eqb_spec c 160%N) as [->|]; [discriminate Hws|reflexivity]. }
  assert (E : StringToNumber cleaned = NaN).
  { apply In_trim in Hc; [|assumption]. unfold StringToNumber.
    destruct (trim cleaned) as [|d t] eqn:Et; [contradiction|].
    destruct (parse_StrNumericLiteral (d :: t)) as [l|] eqn:El; [|reflexivity].
    apply parse_StrNumericLiteral_grammar in El.
    rewrite Forall_forall in El. specialize (El _ Hc). cbv beta in El. congruence. }
  rewrite E. reflexivity.
Qed.

Lemma parseNum_foreign_character_witness :
  parseNum (VString (js "1000" ++ [8381]%N)) = pos_zero /\
  parseNum (VString (js "15%")) = pos_zero.
Proof.
  split.
  - apply (parseNum_foreign_character _ 8381%N);
      [apply in_or_app; right; left; reflexivity
      |reflexivity|discriminate|reflexivity].
  - apply (parseNum_foreign_character _ (cu "%"));
      [right; right; left; reflexivity|reflexivity|discriminate|reflexivity].
Defined.

End Alphabet.

(** ** Further properties of the scenarios *)

Section ScenariosFurther.

Lemma not_below_zero_not_lt x : not_below_zero x -> lt x pos_zero = false.
Proof. intros [_ H]. apply sign_bit_not_lt_zero. assumption. Qed.

(** On non-negative finite amounts every total and every component is
    zero, positive or +Infinity. *)
Lemma amounts_parts (st : State) :
  amounts_entered st ->
  forall s, In s (scenarios st) ->
    not_below_zero (totalTax s) /\
    Forall (fun kv => not_below_zero (snd kv)) (components s).
Proof.
  intros (Ht & Hc & Hr & Hg & Hu & Ha & Hp).
  apply is_amount_not_below_zero in Ht, Hc, Hr, Hg, Hp.
  assert (Htax : not_below_zero (taxable (totals st)))
    by (apply add_not_below_zero; assumption).
  assert (Htot : not_below_zero (total (totals st))).
  { apply add_not_below_zero; [apply add_not_below_zero|]; assumption. }
  assert (Hvat : not_below_zero
                   (if isVatPayer st then mul (taxable (totals st)) VAT5
                    else pos_zero)).
  { destruct (isVatPayer st); [|split; reflexivity].
    apply mul_rate_not_below_zero; [assumption|reflexivity]. }
  assert (H6 : not_below_zero
                 (mul (taxable (totals st)) (of_decimal false 6 (-2))))
    by (apply mul_rate_not_below_zero; [assumption|reflexivity]).
  assert (H15 : not_below_zero
                  (mul (usn15_base st) (of_decimal false 15 (-2)))).
  { apply mul_rate_not_below_zero; [|reflexivity].
    apply floor_not_below_zero; assumption. }
  assert (H8 : not_below_zero (mul (total (totals st)) (of_decimal false 8 (-2))))
    by (apply mul_rate_not_below_zero; [assumption|reflexivity]).
  assert (H20 : not_below_zero
                  (mul (ausn20_base st) (of_decimal false 20 (-2)))).
  { apply mul_rate_not_below_zero; [|reflexivity].
    apply floor_not_below_zero; assumption. }
  intros s Hs. cbn in Hs.
  destruct Hs as [<-|[<-|[<-|[<-|[]]]]];
    cbn [totalTax components usn6 usn15 ausn8 ausn20]; split.
  - repeat apply add_not_below_zero; assumption.
  - constructor; [|constructor; [|constructor; [|constructor]]]; assumption.
  - repeat apply add_not_below_zero; assumption.
  - constructor; [|constructor; [|constructor; [|constructor]]]; assumption.
  - assumption.
  - constructor; [assumption|constructor].
  - assumption.
  - constructor; [assumption|constructor].
Qed.

(** X5: with non-negative finite amounts in the seven fields the scenarios
    read, no total and no component of any scenario is NaN or below zero. *)
Theorem amounts_not_below_zero (st : State) :
  amounts_entered st ->
  forall s, In s (scenarios st) ->
    isNaN (totalTax s) = false /\ lt (totalTax s) pos_zero = false /\
    Forall (fun kv => isNaN (snd kv) = false /\ lt (snd kv) pos_zero = false)
           (components s).
Proof.
  intros Hst s Hs. destruct (amounts_parts st Hst s Hs) as [Ht Hc].
  split; [apply Ht|]. split; [apply not_below_zero_not_lt, Ht|].
  eapply Forall_impl; [|exact Hc]. cbv beta. intros kv Hkv.
  split; [apply Hkv|apply not_below_zero_not_lt, Hkv].
Qed.

Lemma amounts_not_below_zero_witness :
  isNaN (totalTax (usn15 initialState)) = false /\
  lt (totalTax (usn15 initialState)) pos_zero = false /\
  Forall (fun kv => isNaN (snd kv) = false /\ lt (snd kv) pos_zero = false)
         (components (usn15 initialState)).
Proof.
  apply (amounts_not_below_zero initialState).
  - vm_compute. repeat split; reflexivity.
  - right. left. reflexivity.
Defined.

(** X6: the revenue under the patent does not reach the two scenarios with
    the patent: whatever the trainings, the camps and the AUSN expenses are
    changed to, usn6 and usn15 stay the same; usn6 stays the same under a
    change of the USN expenses as well. *)
Theorem patent_scenarios_ignore_sport (st : State)
    (newTrainings newCamps newUsnExpenses newAusnExpenses : jsstring) :
  usn6 {| revTrainings := newTrainings; revCamps := newCamps;
          revRoyalty := revRoyalty st; revGoods := revGoods st;
          usnProfitExpenses := newUsnExpenses;
          ausnProfitExpenses := newAusnExpenses;
          prevYearRevenue := prevYearRevenue st;
          vatThreshold := vatThreshold st;
          psnPatentCost := psnPatentCost st |} = usn6 st /\
  usn15 {| revTrainings := newTrainings; revCamps := newCamps;
           revRoyalty := revRoyalty st; revGoods := revGoods st;
           usnProfitExpenses := usnProfitExpenses st;
           ausnProfitExpenses := newAusnExpenses;
           prevYearRevenue := prevYearRevenue st;
           vatThreshold := vatThreshold st;
           psnPatentCost := psnPatentCost st |} = usn15 st.
Proof. split; reflexivity. Qed.

Lemma lt_not_NaN a b : lt a b = true -> isNaN b = false.
Proof.
  unfold lt, SFltb. destruct a, b; try reflexivity; cbn; discriminate.
Qed.

Lemma fold_pick_after_NaN l : forall a,
  exists j, nth_error (a :: l) j = Some (fold_left pick l a) /\
    forall i s, nth_error (a :: l) i = Some s ->
      isNaN (totalTax s) = true -> (i <= j)%nat.
Proof.
  induction l as [|x l IH] using rev_ind; intros a.
  - exists 0%nat. split; [reflexivity|].
    intros [|i] s Hi _; [lia|]. cbn in Hi. destruct i; discriminate.
  - rewrite fold_left_app. cbn [fold_left].
    destruct (IH a) as [j [Hj Hmax]].
    set (b := fold_left pick l a) in *.
    assert (Hlen : (j < List.length (a :: l))%nat)
      by (apply nth_error_Some; congruence).
    unfold pick. destruct (lt (totalTax b) (totalTax x)) eqn:Hlt.
    + exists j. split.
      * rewrite app_comm_cons, nth_error_app1 by assumption. assumption.
      * intros i s Hi Hn. rewrite app_comm_cons in Hi.
        destruct (Nat.lt_ge_cases i (List.length (a :: l))) as [Hil|Hil].
        -- rewrite nth_error_app1 in Hi by assumption. eapply Hmax; eassumption.
        -- rewrite nth_error_app2 in Hi by assumption.
           destruct (i - List.length (a :: l))%nat as [|k]; cbn in Hi;
             [|destruct k; discriminate].
           injection Hi as <-. apply lt_not_NaN in Hlt. congruence.
    + exists (List.length (a :: l)). split.
      * rewrite app_comm_cons, nth_error_app2, Nat.sub_diag by lia. reflexivity.
      * intros i s Hi _.
        assert (i < List.length ((a :: l) ++ [x]))%nat.
        { apply nth_error_Some. rewrite <- app_comm_cons. congruence. }
        rewrite length_app in *. cbn [List.length] in *. lia.
Qed.

(** X7: a NaN total shuts the scenarios before it out of the selection:
    [best] is then that scenario or a later one, whatever the earlier
    totals are. *)
Theorem best_after_NaN (st : State) (i : nat) (s : Scenario) :
  nth_error (scenarios st) i = Some s -> isNaN (totalTax s) = true ->
  exists j b, best st = Some b /\ nth_error (scenarios st) j = Some b /\
              (i <= j)%nat.
Proof.
  intros Hi Hn. unfold best, scenarios, reduce in *.
  destruct (fold_pick_after_NaN [usn15 st; ausn8 st; ausn20 st] (usn6 st))
    as [j [Hj Hmax]].
  exists j. eexists. split; [reflexivity|]. split; [exact Hj|].
  eapply Hmax; eassumption.
Qed.

Lemma best_after_NaN_witness :
  exists j b, best infiniteState = Some b /\
              nth_error (scenarios infiniteState) j = Some b /\ (3 <= j)%nat.
Proof.
  apply (best_after_NaN infiniteState 3 (ausn20 infiniteState));
    vm_compute; reflexivity.
Defined.

(** ** The cards of the summary *)








(** A component below zero is left out of the cards and still counted in
    the total: with a patent cost of -50 and a royalty of 1000 the one card
    shows 60 and the total is 10. *)
Example breakdown_negative_patent :
  best negativePatentState = Some (usn6 negativePatentState) /\
  map snd (breakdown (usn6 negativePatentState)) = [whole 60] /\
  totalTax (usn6 negativePatentState) = whole 10.
Proof. vm_compute. repeat split; reflexivity. Qed.

End ScenariosFurther.

(** ** The memoised computations across renders *)

Section Memo.

Lemma useMemo_spec {D V : Type} (same : D -> D -> bool)
    (cell : option (D * V)) (deps : D) (create : V) :
  (forall a b, same a b = true -> a = b) ->
  (forall v, cell = Some (deps, v) -> v = create) ->
  exists created,
    useMemo same cell deps create = (Some (deps, create), create, created).
Proof.
  intros Hsame Hcell. unfold useMemo.
  destruct cell as [[old v]|]; [|eexists; reflexivity].
  destruct (same old deps) eqn:E; [|eexists; reflexivity].
  apply Hsame in E. subst old. rewrite (Hcell v eq_refl).
  eexists. reflexivity.
Qed.

Lemma same_totals_deps_eq a b : same_totals_deps a b = true -> a = b.
Proof.
  destruct a as [[[a1 a2] a3] a4], b as [[[b1 b2] b3] b4]. cbn.
  intros H. repeat (apply andb_prop in H; destruct H as [H ?]).
  repeat match goal with
         | E : jsstring_eqb _ _ = true |- _ => apply jsstring_eqb_eq in E
         end.
  congruence.
Qed.

Lemma same_usn6_deps_eq a b : same_usn6_deps a b = true -> a = b.
Proof.
  destruct a as [[a1 a2] a3], b as [[b1 b2] b3]. cbn.
  intros H. repeat (apply andb_prop in H; destruct H as [H ?]).
  apply Nat.eqb_eq in H.
  repeat match goal with
         | E : jsstring_eqb _ _ = true |- _ => apply jsstring_eqb_eq in E
         | E : Bool.eqb _ _ = true |- _ => apply eqb_prop in E
         end.
  congruence.
Qed.

Lemma same_usn15_deps_eq a b : same_usn15_deps a b = true -> a = b.
Proof.
  destruct a as [[[a1 a2] a3] a4], b as [[[b1 b2] b3] b4]. cbn.
  intros H. repeat (apply andb_prop in H; destruct H as [H ?]).
  apply Nat.eqb_eq in H.
  repeat match goal with
         | E : jsstring_eqb _ _ = true |- _ => apply jsstring_eqb_eq in E
         | E : Bool.eqb _ _ = true |- _ => apply eqb_prop in E
         end.
  congruence.
Qed.

Lemma same_ausn20_deps_eq a b : same_ausn20_deps a b = true -> a = b.
Proof.
  destruct a as [a1 a2], b as [b1 b2]. cbn.
  intros H. apply andb_prop in H. destruct H as [H1 H2].
  apply Nat.eqb_eq in H1. apply jsstring_eqb_eq in H2. congruence.
Qed.

Lemma nat_eqb_eq a b : Nat.eqb a b = true -> a = b.
Proof. apply Nat.eqb_eq. Qed.

(** The scenario cells of [h] agree with the object [o]: a cell whose
    dependencies name [o] holds what its body gives on the fields of [o]. *)
Lemma render_scenarios (h : Hooks) (st : State) (o : TotalsRef) (next : nat)
    (c_totals : option ((jsstring * jsstring * jsstring * jsstring) * TotalsRef)) :
  c_totals = Some ((revTrainings st, revCamps st, revRoyalty st, revGoods st), o) ->
  (ref o < next)%nat ->
  fields o = totals st ->
  (forall p v s, usn6_memo h = Some ((ref o, p, v), s) ->
     s = usn6_of (fields o) p v) ->
  (forall p e v s, usn15_memo h = Some ((ref o, p, e, v), s) ->
     s = usn15_of (fields o) p e v) ->
  (forall s, ausn8_memo h = Some (ref o, s) -> s = ausn8_of (fields o)) ->
  (forall e s, ausn20_memo h = Some ((ref o, e), s) ->
     s = ausn20_of (fields o) e) ->
  let isVatPayer :=
    gt (parseNum (VString (prevYearRevenue st)))
       (parseNum (VString (vatThreshold st))) in
  exists h',
    (let '(c_usn6, usn6, _) :=
       useMemo same_usn6_deps (usn6_memo h)
         (ref o, psnPatentCost st, isVatPayer)
         (usn6_of (fields o) (psnPatentCost st) isVatPayer) in
     let '(c_usn15, usn15, _) :=
       useMemo same_usn15_deps (usn15_memo h)
         (ref o, psnPatentCost st, usnProfitExpenses st, isVatPayer)
         (usn15_of (fields o) (psnPatentCost st) (usnProfitExpenses st)
                   isVatPayer) in
     let '(c_ausn8, ausn8, _) :=
       useMemo Nat.eqb (ausn8_memo h) (ref o) (ausn8_of (fields o)) in
     let '(c_ausn20, ausn20, _) :=
       useMemo same_ausn20_deps (ausn20_memo h)
         (ref o, ausnProfitExpenses st)
         (ausn20_of (fields o) (ausnProfitExpenses st)) in
     let scenarios := [usn6; usn15; ausn8; ausn20] in
     ({| next_ref := next; totals_memo := c_totals; usn6_memo := c_usn6;
         usn15_memo := c_usn15; ausn8_memo := c_ausn8;
         ausn20_memo := c_ausn20 |},
      {| r_totals := fields o;
         r_isVatPayer := isVatPayer;
         r_scenarios := scenarios;
         r_best := reduce pick scenarios;
         r_chartData :=
           map (fun s => {| name := label s;
                            value := Math_round (totalTax s) |})
               scenarios |})) = (h', fresh st) /\
    hooks_consistent h'.
Proof.
  intros Ec Href Hf H6 H15 H8 H20 isVat.
  destruct o as [ro fo]. cbn [ref fields] in *. subst fo.
  destruct (useMemo_spec same_usn6_deps (usn6_memo h)
              (ro, psnPatentCost st, isVat)
              (usn6_of (totals st) (psnPatentCost st) isVat)
              same_usn6_deps_eq (H6 _ _)) as [f6 E6].
  destruct (useMemo_spec same_usn15_deps (usn15_memo h)
              (ro, psnPatentCost st, usnProfitExpenses st, isVat)
              (usn15_of (totals st) (psnPatentCost st) (usnProfitExpenses st) isVat)
              same_usn15_deps_eq (H15 _ _ _)) as [f15 E15].
  destruct (useMemo_spec Nat.eqb (ausn8_memo h) ro (ausn8_of (totals st))
              nat_eqb_eq H8) as [f8 E8].
  destruct (useMemo_spec same_ausn20_deps (ausn20_memo h)
              (ro, ausnProfitExpenses st)
              (ausn20_of (totals st) (ausnProfitExpenses st))
              same_ausn20_deps_eq (H20 _)) as [f20 E20].
  rewrite E6, E15, E8, E20. eexists. split.
  - reflexivity.
  - right. exists (revTrainings st), (revCamps st), (revRoyalty st), (revGoods st).
    exists {| ref := ro; fields := totals st |}.
    exists (psnPatentCost st), isVat, (psnPatentCost st), (usnProfitExpenses st), isVat.
    exists (ausnProfitExpenses st).
    cbn [next_ref totals_memo usn6_memo usn15_memo ausn8_memo ausn20_memo].
    repeat split; try assumption; reflexivity.
Qed.

(** A render on consistent hooks computes what a render without a cache
    computes, and leaves consistent hooks. *)
Lemma render_consistent (h : Hooks) (st : State) :
  hooks_consistent h ->
  exists h', render h st = (h', fresh st) /\ hooks_consistent h'.
Proof.
  intros [->|(t & c & r & g & o & p6 & v6 & p15 & e15 & v15 & e20 &
              Et & Href & Hf & E6 & E15 & E8 & E20)].
  - unfold render. cbn [totals_memo mount useMemo next_ref].
    apply (render_scenarios mount st _ 1%nat); cbn; try reflexivity; try lia;
      intros; discriminate.
  - unfold render. rewrite Et. cbn [useMemo].
    destruct (same_totals_deps (t, c, r, g)
                (revTrainings st, revCamps st, revRoyalty st, revGoods st)) eqn:Es.
    + apply same_totals_deps_eq in Es. injection Es as -> -> -> ->.
      apply (render_scenarios h st o (next_ref h)); try assumption.
      * reflexivity.
      * intros p v s H. rewrite E6 in H. injection H as <- <- <-. reflexivity.
      * intros p e v s H. rewrite E15 in H. injection H as <- <- <- <-. reflexivity.
      * intros s H. rewrite E8 in H. injection H as <-. reflexivity.
      * intros e s H. rewrite E20 in H. injection H as <- <-. reflexivity.
    + apply (render_scenarios h st _ (S (next_ref h))); cbn [ref fields];
        try reflexivity; try lia.
      * intros p v s H. rewrite E6 in H. injection H as Hr _ _ _. lia.
      * intros p e v s H. rewrite E15 in H. injection H as Hr _ _ _ _. lia.
      * intros s H. rewrite E8 in H. injection H as Hr _. lia.
      * intros e s H. rewrite E20 in H. injection H as Hr _ _. lia.
Qed.

Lemma renders_consistent (sts : list State) : forall h,
  hooks_consistent h -> renders h sts = map fresh sts.
Proof.
  induction sts as [|st rest IH]; intros h Hh; [reflexivity|].
  cbn [renders map].
  destruct (render_consistent h st Hh) as [h' [E Hh']].
  rewrite E, (IH h' Hh'). reflexivity.
Qed.

(** X8: the memoised values are never stale: through any sequence of states
    from the mount on, every render returns the totals, the four scenarios,
    the selection and the chart data of its own state, as if nothing were
    cached. *)
Theorem renders_never_stale (sts : list State) :
  renders mount sts = map fresh sts.
Proof. apply renders_consistent. left. reflexivity. Qed.

End Memo.

(** ** The chart values *)

Section Chart.

Lemma valid_finite_bounds s m e :
  valid_binary prec emax (S754_finite s m e) = true ->
  Zdigits2 (Z.pos m) <= 53 /\ -1074 <= e.
Proof.
  cbn [valid_binary]. unfold bounded, canonical_mantissa. intros H.
  apply andb_prop in H. destruct H as [H _]. apply Z.eqb_eq in H.
  change (Z.pos (digits2_pos m)) with (Zdigits2 (Z.pos m)) in H.
  unfold SpecFloat.fexp, SpecFloat.emin, prec, emax in H. lia.
Qed.

(** An integer of at most 53 bits is converted without rounding. *)
Lemma binary_round_small_integer s p :
  Zdigits2 (Z.pos p) <= 53 ->
  integer_value (binary_round prec emax s p 0) = Some (cond_Zopp s (Z.pos p)).
Proof.
  intros Hd. unfold binary_round.
  pose proof (Zdigits2_pos (Z.pos p) ltac:(lia)) as Hd0.
  change (Z.pos (digits2_pos p)) with (Zdigits2 (Z.pos p)).
  assert (Ef : SpecFloat.fexp prec emax (Zdigits2 (Z.pos p) + 0)
               = Zdigits2 (Z.pos p) - 53)
    by (unfold SpecFloat.fexp, SpecFloat.emin, prec, emax; lia).
  rewrite Ef.
  pose proof (shl_align_spec p 0 (Zdigits2 (Z.pos p) - 53)) as [Hm He].
  destruct (shl_align p 0 (Zdigits2 (Z.pos p) - 53)) as [mz ez].
  cbn [fst snd] in Hm, He.
  assert (Ez : ez = Zdigits2 (Z.pos p) - 53) by lia. clear He.
  assert (Hdz : Zdigits2 (Z.pos mz) = 53).
  { rewrite Hm, Zdigits2_mul_pow2 by lia. lia. }
  assert (En : SpecFloat.fexp prec emax (Zdigits2 (Z.pos mz) + ez) - ez = 0)
    by (rewrite Hdz; unfold SpecFloat.fexp, SpecFloat.emin, prec, emax; lia).
  unfold binary_round_aux, shr_fexp. rewrite En. cbn [shr shr_record_of_loc shr_m
    loc_of_shr_record round_nearest_even]. rewrite En. cbn [shr shr_record_of_loc shr_m].
  assert (El : (ez <=? emax - prec) = true)
    by (apply Z.leb_le; unfold prec, emax; lia).
  rewrite El. cbn [integer_value].
  destruct (Z.leb_spec 0 ez) as [H0|H0].
  - assert (E0 : ez = 0) by lia. rewrite Hm, E0.
    replace (0 - 0) with 0 by lia.
    rewrite Z.pow_0_r, !Z.mul_1_r. reflexivity.
  - assert (Hp : 0 < 2 ^ (- ez)) by (apply Z.pow_pos_nonneg; lia).
    rewrite Hm. replace (0 - ez) with (- ez) by lia.
    rewrite Z.mod_mul, Z.eqb_refl, Z.div_mul by lia. reflexivity.
Qed.

Lemma binary_normalize_small_integer r :
  Z.abs r <= 2 ^ 52 ->
  integer_value (binary_normalize prec emax r 0 false) = Some r.
Proof.
  intros Hr.
  assert (Hd : forall p, Z.pos p <= 2 ^ 52 -> Zdigits2 (Z.pos p) <= 53).
  { intros p Hp.
    pose proof (Zdigits2_monotone (Z.pos p) (2 ^ 52) ltac:(lia) Hp) as H.
    rewrite Zdigits2_pow2 in H by lia. lia. }
  destruct r as [|p|p]; cbn [binary_normalize].
  - reflexivity.
  - rewrite binary_round_small_integer by (apply Hd; lia). reflexivity.
  - rewrite binary_round_small_integer by (apply Hd; lia). reflexivity.
Qed.

(** [Math.round] of a finite number is the integer [r] with
    [r - 1/2 <= x < r + 1/2], held exactly. *)
Lemma Math_round_integer x :
  valid_binary prec emax x = true -> is_finite x = true ->
  exists r, integer_value (Math_round x) = Some r /\
    (2 * r - 1) * 2 ^ 1074 <= doubled_scaled x < (2 * r + 1) * 2 ^ 1074.
Proof.
  intros Hv Hf. destruct x as [s| | |s m e]; try discriminate.
  - exists 0. split; [reflexivity|]. cbn. lia.
  - destruct (valid_finite_bounds s m e Hv) as [Hd He].
    pose proof (Zdigits2_bounds (Z.pos m) ltac:(lia)) as [_ Hm].
    assert (Hm53 : Z.pos m < 2 ^ 53).
    { eapply Z.lt_le_trans; [exact Hm|]. apply Z.pow_le_mono_r; lia. }
    clear Hm Hd.
    destruct e as [|k|k].
    + exists (cond_Zopp s (Z.pos m)). split.
      * cbn [Math_round integer_value]. change (0 <=? 0) with true. cbv iota.
        rewrite Z.pow_0_r, Z.mul_1_r. reflexivity.
      * cbn [doubled_scaled]. change (0 + 1075) with (1 + 1074).
        rewrite Z.pow_add_r by lia. destruct s; cbn [cond_Zopp]; lia.
    + exists (cond_Zopp s (Z.pos m * 2 ^ Z.pos k)). split.
      * reflexivity.
      * cbn [doubled_scaled].
        replace (Z.pos k + 1075) with (Z.pos k + 1 + 1074) by lia.
        rewrite (Z.pow_add_r 2 (Z.pos k + 1)), (Z.pow_add_r 2 (Z.pos k)) by lia.
        assert (0 < 2 ^ Z.pos k) by (apply Z.pow_pos_nonneg; lia).
        destruct s; cbn [cond_Zopp]; nia.
    + set (v := if s then Z.neg m else Z.pos m).
      set (B := 2 ^ Z.pos k).
      set (r := Z.shiftr (2 * v + B) (Z.pos k + 1)).
      assert (HB : 2 <= B).
      { subst B. change 2 with (2 ^ 1) at 1. apply Z.pow_le_mono_r; lia. }
      assert (Hv' : - 2 ^ 53 < v < 2 ^ 53) by (subst v; destruct s; lia).
      assert (Hr : 2 * B * r <= 2 * v + B < 2 * B * (r + 1)).
      { subst r. rewrite Z.shiftr_div_pow2 by lia.
        replace (2 ^ (Z.pos k + 1)) with (2 * B)
          by (subst B; rewrite Z.pow_add_r; lia).
        pose proof (Z.div_mod (2 * v + B) (2 * B) ltac:(lia)).
        pose proof (Z.mod_pos_bound (2 * v + B) (2 * B) ltac:(lia)). lia. }
      assert (Habs : Z.abs r <= 2 ^ 52) by nia.
      assert (Hds : doubled_scaled (S754_finite s m (Z.neg k))
                    = 2 * v * 2 ^ (1074 - Z.pos k)).
      { cbn [doubled_scaled].
        replace (Z.neg k + 1075) with (1 + (1074 - Z.pos k)) by lia.
        rewrite Z.pow_add_r by lia. subst v. destruct s; cbn [cond_Zopp]; lia. }
      assert (HA : 2 ^ 1074 = B * 2 ^ (1074 - Z.pos k)).
      { subst B. rewrite <- Z.pow_add_r by lia. f_equal. lia. }
      assert (0 < 2 ^ (1074 - Z.pos k)) by (apply Z.pow_pos_nonneg; lia).
      exists r. split.
      * cbn [Math_round]. fold v. fold B. fold r.
        destruct (Z.eq_dec r 0) as [E|E].
        -- rewrite E. reflexivity.
        -- rewrite <- (binary_normalize_small_integer r Habs).
           destruct r; [congruence|reflexivity|reflexivity].
      * rewrite Hds, HA. nia.
Qed.

Lemma Math_round_not_finite x : is_finite x = false -> Math_round x = x.
Proof. destruct x; try discriminate; reflexivity. Qed.

(** X10: every chart value is a whole number near its total: for a finite
    total it is exactly the integer [r] with [r - 1/2 <= total < r + 1/2];
    a total that is NaN or infinite is passed on as it is.  The chart data
    follow the scenarios one for one, under their labels. *)
Theorem chart_values_whole (st : State) :
  Forall2
    (fun s d =>
       name d = label s /\
       (is_finite (totalTax s) = false -> value d = totalTax s) /\
       (is_finite (totalTax s) = true ->
        exists r, integer_value (value d) = Some r /\
          (2 * r - 1) * 2 ^ 1074 <= doubled_scaled (totalTax s)
          < (2 * r + 1) * 2 ^ 1074))
    (scenarios st) (chartData st).
Proof.
  assert (H : forall s, In s (scenarios st) ->
    name {| name := label s; value := Math_round (totalTax s) |} = label s /\
    (is_finite (totalTax s) = false ->
     value {| name := label s; value := Math_round (totalTax s) |} = totalTax s) /\
    (is_finite (totalTax s) = true ->
     exists r,
       integer_value
         (value {| name := label s; value := Math_round (totalTax s) |}) = Some r /\
       (2 * r - 1) * 2 ^ 1074 <= doubled_scaled (totalTax s)
       < (2 * r + 1) * 2 ^ 1074)).
  { intros s Hs. cbn [name value]. split; [reflexivity|]. split.
    - apply Math_round_not_finite.
    - apply Math_round_integer. apply (totalTax_valid st). assumption. }
  unfold chartData. revert H. generalize (scenarios st) as l.
  induction l as [|s l IH]; intros H; cbn [map]; constructor.
  - apply H. left. reflexivity.
  - apply IH. intros s' Hs'. apply H. right. assumption.
Qed.

End Chart.
